(** * Basic Auto Finance Quote: calculator, field synchronizer and quote store

    A shallow embedding of the two programs of the repository:

    - the quote form of [frontend/src/App.vue] ([safeNum]/[num], [round2],
      the cost/profit/selling-price synchronizer and [applyQuote]), in its two
      versions (the typed one, and the compact one);
    - the Express server ([readQuotes], [writeQuotes] and the three routes
      on [/quotes]).

    Numbers.  A JavaScript number is modelled by [JS.number]: [NaN], the two
    infinities, and the finite values as exact rationals.  The code tests
    for [NaN], compares with [0] and divides, so the special values are kept;
    what is idealised is the rounding of binary64 arithmetic (finite
    results are exact, there is no overflow and no negative zero).  Equality
    of numbers is [JS.same], equality of the rationals inside.  An amount
    [Fin (z / 100)] stands for the binary64 value nearest to [z] cents.

    The program runs in binary64, where a product by [100] is exact to the
    half cent on a limited range only.  The statements on ties of the
    rounding and on the round trips of the synchronizer are therefore kept
    to inputs on which binary64 computes the same cents as the rationals:
    values whose product by [100] is exact, and amounts of whole cents up to
    a billion.  Beyond that range they fail in binary64
    ([Binary64Checks] has the inputs).

    [Math.pow] is not a rational function; the calculator takes it as a
    parameter, and [JS.pow_exact] instantiates it for whole exponents.
    [Binary64] has [Math.round] and [round2] over IEEE binary64 itself, to
    evaluate the inputs at which a claim fails, and ranges of the inputs on
    which a statement holds, in the arithmetic the program runs with.

    Store.  The durable document is a [Server.file]: absent, unreadable, or
    holding text that [JSON.parse] either rejects or turns into a list of
    quotes (the type [Quote[]] that [readQuotes] declares, and what
    [writeQuotes] always writes).  Requests are handled one after the other;
    [fs.writeFile] is taken to succeed, and every call of it is counted in
    the disk state.  The clock readings of a create are inputs of the
    request.

    Page.  [Client] has [fetchQuotes], [saveQuote] and [deleteQuote] of both
    versions against that server, a [fetch] being delivered or losing its
    request or its response.  [Obj] has [form] and [result] as objects, for
    [viewQuote] and the body of a save, which depend on the properties the
    two objects happen to have.  The currency formatters rest on
    [toLocaleString] and are left out. *)

From Stdlib Require Import ZArith QArith Qround Qabs Lia Lqa Bool List String.
From Stdlib Require Import Setoid Morphisms DecimalString DecimalZ Floats.
Import ListNotations.

Set Implicit Arguments.

(* ================================================================= *)
(** * Part I: the embedding *)
(* ================================================================= *)

(** ** JavaScript numbers and values *)

Module JS.

Local Open Scope Q_scope.

Inductive number : Type :=
| NaN
| PosInf
| NegInf
| Fin (q : Q).

Arguments Fin q%_Q.

(** Same value: the finite case compares the rationals. *)
Definition same (x y : number) : Prop :=
  match x, y with
  | NaN, NaN => True
  | PosInf, PosInf => True
  | NegInf, NegInf => True
  | Fin p, Fin q => p == q
  | _, _ => False
  end.

(** The infinity whose sign is given by a comparison with zero; [Eq]
    is the product of an infinity with zero. *)
Definition signed_inf (c : comparison) : number :=
  match c with
  | Gt => PosInf
  | Lt => NegInf
  | Eq => NaN
  end.

Definition neg (x : number) : number :=
  match x with
  | NaN => NaN
  | PosInf => NegInf
  | NegInf => PosInf
  | Fin q => Fin (- q)
  end.

Definition add (x y : number) : number :=
  match x, y with
  | NaN, _ | _, NaN => NaN
  | PosInf, NegInf | NegInf, PosInf => NaN
  | PosInf, _ | _, PosInf => PosInf
  | NegInf, _ | _, NegInf => NegInf
  | Fin p, Fin q => Fin (p + q)
  end.

Definition sub (x y : number) : number := add x (neg y).

Definition mul (x y : number) : number :=
  match x, y with
  | NaN, _ | _, NaN => NaN
  | PosInf, PosInf | NegInf, NegInf => PosInf
  | PosInf, NegInf | NegInf, PosInf => NegInf
  | PosInf, Fin q | Fin q, PosInf => signed_inf (q ?= 0)
  | NegInf, Fin q | Fin q, NegInf => signed_inf (0 ?= q)
  | Fin p, Fin q => Fin (p * q)
  end.

(** Division; a finite zero divisor counts as [+0]. *)
Definition div (x y : number) : number :=
  match x, y with
  | NaN, _ | _, NaN => NaN
  | (PosInf | NegInf), (PosInf | NegInf) => NaN
  | PosInf, Fin q => if Qlt_le_dec q 0 then NegInf else PosInf
  | NegInf, Fin q => if Qlt_le_dec q 0 then PosInf else NegInf
  | Fin _, (PosInf | NegInf) => Fin 0
  | Fin p, Fin q => if Qeq_bool q 0 then signed_inf (p ?= 0) else Fin (p / q)
  end.

(** [x <= y]: false as soon as one side is [NaN]. *)
Definition le (x y : number) : bool :=
  match x, y with
  | NaN, _ | _, NaN => false
  | NegInf, _ | _, PosInf => true
  | PosInf, _ | _, NegInf => false
  | Fin p, Fin q => Qle_bool p q
  end.

(** [x === y] on numbers: [NaN] is not equal to itself. *)
Definition strict_eq (x y : number) : bool :=
  match x, y with
  | PosInf, PosInf | NegInf, NegInf => true
  | Fin p, Fin q => Qeq_bool p q
  | _, _ => false
  end.

(** [Math.round]: the nearest integer, a tie going to the one closer to
    plus infinity. *)
Definition Math_round (x : number) : number :=
  match x with
  | Fin q => Fin (inject_Z (Qfloor (q + (1 # 2))))
  | _ => x
  end.

(** An instance of [Math.pow] that is exact where the result is rational:
    finite base, whole finite exponent.  On a zero base with a negative
    exponent it answers [Infinity]; [pow(x, 0)] is [1] for every [x]; the
    remaining arguments are outside this instance and answer [NaN]. *)
Definition pow_exact (b e : number) : number :=
  match e with
  | Fin y =>
      if Qeq_bool y 0 then Fin 1
      else
        match b with
        | Fin x =>
            if negb (Qeq_bool (inject_Z (Qfloor y)) y) then NaN
            else if Qeq_bool x 0 && Qle_bool y 0 then PosInf
            else Fin (Qpower x (Qfloor y))
        | _ => NaN
        end
  | _ => NaN
  end.

(** The values a form field or a JSON property can hold. *)
Inductive value : Type :=
| VUndefined
| VNull
| VBool (b : bool)
| VString (s : string)
| VNumber (n : number).

Definition typeof (v : value) : string :=
  match v with
  | VUndefined => "undefined"
  | VNull => "object"
  | VBool _ => "boolean"
  | VString _ => "string"
  | VNumber _ => "number"
  end.

Definition Number_isNaN (v : value) : bool :=
  match v with
  | VNumber NaN => true
  | _ => false
  end.

(** The number inside a value whose [typeof] is ["number"]. *)
Definition as_number (v : value) : number :=
  match v with
  | VNumber n => n
  | _ => NaN
  end.

Definition same_value (v w : value) : Prop :=
  match v, w with
  | VUndefined, VUndefined => True
  | VNull, VNull => True
  | VBool a, VBool b => a = b
  | VString s, VString t => s = t
  | VNumber x, VNumber y => same x y
  | _, _ => False
  end.

End JS.

Declare Scope js_scope.
Delimit Scope js_scope with js.
Bind Scope js_scope with JS.number.
Infix "+" := JS.add : js_scope.
Infix "-" := JS.sub : js_scope.
Infix "*" := JS.mul : js_scope.
Infix "/" := JS.div : js_scope.
Infix "<=?" := JS.le : js_scope.
Infix "===" := JS.strict_eq (at level 70, no associativity) : js_scope.
Infix "=~" := JS.same (at level 70, no associativity).

(** ** The quote form ([frontend/src/App.vue], first version) *)

Module App.
Import JS.
Local Open Scope js_scope.

(** [interface QuoteForm]: the numeric fields are [number | null]; an
    input bound with [v-model.number] can also leave a string there. *)
Record QuoteForm : Type := {
  cost : value;
  profit : value;
  sellingPrice : value;
  term : value;
  rate : value;
  outOfPocket : value;
  taxRate : value;
  quoteName : string
}.

Record QuoteResult : Type := {
  taxes : number;
  baseLoanAmount : number;
  interest : number;
  totalLoanAmount : number;
  payment : number
}.

(** The two reactive objects [form] and [result] of an editing session. *)
Record session : Type := {
  form : QuoteForm;
  result : QuoteResult
}.

Definition set_sellingPrice (v : value) (f : QuoteForm) : QuoteForm :=
  {| cost := cost f; profit := profit f; sellingPrice := v; term := term f;
     rate := rate f; outOfPocket := outOfPocket f; taxRate := taxRate f;
     quoteName := quoteName f |}.

Definition set_profit (v : value) (f : QuoteForm) : QuoteForm :=
  {| cost := cost f; profit := v; sellingPrice := sellingPrice f;
     term := term f; rate := rate f; outOfPocket := outOfPocket f;
     taxRate := taxRate f; quoteName := quoteName f |}.

Definition set_term (v : value) (f : QuoteForm) : QuoteForm :=
  {| cost := cost f; profit := profit f; sellingPrice := sellingPrice f;
     term := v; rate := rate f; outOfPocket := outOfPocket f;
     taxRate := taxRate f; quoteName := quoteName f |}.

Definition set_rate (v : value) (f : QuoteForm) : QuoteForm :=
  {| cost := cost f; profit := profit f; sellingPrice := sellingPrice f;
     term := term f; rate := v; outOfPocket := outOfPocket f;
     taxRate := taxRate f; quoteName := quoteName f |}.

Definition with_form (g : QuoteForm -> QuoteForm) (s : session) : session :=
  {| form := g (form s); result := result s |}.

(** The state of a fresh session. *)
Definition initial_form : QuoteForm :=
  {| cost := VNumber (Fin 26906);
     profit := VNumber (Fin 1500);
     sellingPrice := VNumber (Fin 28406);
     term := VNumber (Fin 36);
     rate := VNumber (Fin 5.7);
     outOfPocket := VNumber (Fin 2000);
     taxRate := VNumber (Fin 7.5);
     quoteName := "2025 Ford Escape" |}.

Definition initial_result : QuoteResult :=
  {| taxes := Fin 2130.45;
     baseLoanAmount := Fin 30536.45;
     interest := Fin 1740.58;
     totalLoanAmount := Fin 30277.03;
     payment := Fin 841.03 |}.

Definition initial : session :=
  {| form := initial_form; result := initial_result |}.

(** *** Helpers *)

Definition safeNum (value : value) : number :=
  if negb (typeof value =? "number")%string || Number_isNaN value
  then Fin 0
  else as_number value.

Definition round2 (value : number) : number :=
  Math_round (value * Fin 100) / Fin 100.

(** *** Sync cost / profit / sellingPrice *)

Definition updateSellingFromCostAndProfit (s : session) : session :=
  let cost := safeNum (cost (form s)) in
  let profit := safeNum (profit (form s)) in
  with_form (set_sellingPrice (VNumber (round2 (cost + profit)))) s.

Definition updateProfitFromCostAndSelling (s : session) : session :=
  let cost := safeNum (cost (form s)) in
  let selling := safeNum (sellingPrice (form s)) in
  with_form (set_profit (VNumber (round2 (selling - cost)))) s.

Definition onCostChange : session -> session :=
  updateSellingFromCostAndProfit.

Definition onProfitChange : session -> session :=
  updateSellingFromCostAndProfit.

Definition onSellingPriceChange : session -> session :=
  updateProfitFromCostAndSelling.

(** *** Finance calculation (Apply) *)

Section Apply.

Variable Math_pow : number -> number -> number.

Definition applyQuote (s : session) : session :=
  let selling := safeNum (sellingPrice (form s)) in
  let taxRate := safeNum (taxRate (form s)) / Fin 100 in
  let yearlyRate := safeNum (rate (form s)) / Fin 100 in
  let termMonths := safeNum (term (form s)) in
  let outOfPocket := safeNum (outOfPocket (form s)) in
  (* 1) taxes on the selling price *)
  let taxes := round2 (selling * taxRate) in
  (* 2) base loan amount *)
  let baseLoanAmount := round2 (selling + taxes - outOfPocket) in
  (* 3) monthly interest rate *)
  let monthlyRate := yearlyRate / Fin 12 in
  (* 4) monthly payment *)
  let payment :=
    if (termMonths <=? Fin 0) || (baseLoanAmount <=? Fin 0) then Fin 0
    else if monthlyRate === Fin 0 then round2 (baseLoanAmount / termMonths)
    else
      let factor := Math_pow (Fin 1 + monthlyRate) (neg termMonths) in
      round2 ((baseLoanAmount * monthlyRate) / (Fin 1 - factor)) in
  (* 5) total loan and interest *)
  let totalLoanAmount := round2 (payment * termMonths) in
  let interest := round2 (totalLoanAmount - baseLoanAmount) in
  (* 6) write results into the reactive object *)
  {| form := form s;
     result := {| taxes := taxes;
                  baseLoanAmount := baseLoanAmount;
                  interest := interest;
                  totalLoanAmount := totalLoanAmount;
                  payment := payment |} |}.

End Apply.

(** Field-wise equality of results, up to [JS.same]. *)
Definition same_result (r r' : QuoteResult) : Prop :=
  taxes r =~ taxes r' /\
  baseLoanAmount r =~ baseLoanAmount r' /\
  interest r =~ interest r' /\
  totalLoanAmount r =~ totalLoanAmount r' /\
  payment r =~ payment r'.

End App.

(** ** The quote form, second (compact) version of [App.vue] *)

Module App2.
Import JS.
Export App (QuoteForm, QuoteResult, session).
Import App.
Local Open Scope js_scope.

Definition set_taxes (x : number) (r : QuoteResult) : QuoteResult :=
  {| taxes := x; baseLoanAmount := baseLoanAmount r; interest := interest r;
     totalLoanAmount := totalLoanAmount r; payment := payment r |}.

Definition set_baseLoanAmount (x : number) (r : QuoteResult) : QuoteResult :=
  {| taxes := taxes r; baseLoanAmount := x; interest := interest r;
     totalLoanAmount := totalLoanAmount r; payment := payment r |}.

Definition set_interest (x : number) (r : QuoteResult) : QuoteResult :=
  {| taxes := taxes r; baseLoanAmount := baseLoanAmount r; interest := x;
     totalLoanAmount := totalLoanAmount r; payment := payment r |}.

Definition set_totalLoanAmount (x : number) (r : QuoteResult) : QuoteResult :=
  {| taxes := taxes r; baseLoanAmount := baseLoanAmount r;
     interest := interest r; totalLoanAmount := x; payment := payment r |}.

Definition set_payment (x : number) (r : QuoteResult) : QuoteResult :=
  {| taxes := taxes r; baseLoanAmount := baseLoanAmount r;
     interest := interest r; totalLoanAmount := totalLoanAmount r;
     payment := x |}.

Definition with_result (g : QuoteResult -> QuoteResult) (s : session)
  : session :=
  {| form := form s; result := g (result s) |}.

Definition initial_result : QuoteResult :=
  {| taxes := Fin 0; baseLoanAmount := Fin 0; interest := Fin 0;
     totalLoanAmount := Fin 0; payment := Fin 0 |}.

Definition initial : session :=
  {| form := initial_form; result := initial_result |}.

(** *** Utility functions *)

Definition num (v : value) : number :=
  if (typeof v =? "number")%string then as_number v else Fin 0.

Definition round (v : number) : number :=
  Math_round (v * Fin 100) / Fin 100.

(** *** Calculate results *)

Section Apply.

Variable Math_pow : number -> number -> number.

Definition applyQuote (s : session) : session :=
  let selling := num (sellingPrice (form s)) in
  let taxRate := num (taxRate (form s)) / Fin 100 in
  let yearlyRate := num (rate (form s)) / Fin 100 in
  let term := num (term (form s)) in
  let down := num (outOfPocket (form s)) in
  let s := with_result (set_taxes (round (selling * taxRate))) s in
  let s :=
    with_result
      (set_baseLoanAmount (round (selling + taxes (result s) - down))) s in
  let monthlyRate := yearlyRate / Fin 12 in
  let s :=
    if (term <=? Fin 0) || (baseLoanAmount (result s) <=? Fin 0)
    then with_result (set_payment (Fin 0)) s
    else if monthlyRate === Fin 0
    then with_result (set_payment (round (baseLoanAmount (result s) / term))) s
    else
      let factor := Math_pow (Fin 1 + monthlyRate) (neg term) in
      with_result
        (set_payment
           (round ((baseLoanAmount (result s) * monthlyRate)
                   / (Fin 1 - factor)))) s in
  let s :=
    with_result (set_totalLoanAmount (round (payment (result s) * term))) s in
  with_result
    (set_interest
       (round (totalLoanAmount (result s) - baseLoanAmount (result s)))) s.

End Apply.

(** *** Update selling price when cost/profit changes *)

Definition updateSelling (s : session) : session :=
  with_form
    (set_sellingPrice
       (VNumber (round (num (cost (form s)) + num (profit (form s)))))) s.

Definition updateProfit (s : session) : session :=
  with_form
    (set_profit
       (VNumber (round (num (sellingPrice (form s)) - num (cost (form s))))))
    s.

End App2.

(** ** The quote store (the Express server) *)

(** [l] is [l'] with some elements left out, the order kept. *)
Inductive Subseq (A : Type) : list A -> list A -> Prop :=
| Subseq_nil : Subseq [] []
| Subseq_keep (x : A) (l l' : list A) :
    Subseq l l' -> Subseq (x :: l) (x :: l')
| Subseq_drop (x : A) (l l' : list A) :
    Subseq l l' -> Subseq l (x :: l').

Module Server.

(** [Date.now().toString()]: the decimal digits of the clock reading, in
    milliseconds. *)
Definition toString (n : Z) : string :=
  NilEmpty.string_of_int (Z.to_int n).

Inductive error : Type :=
| ENOENT        (* no such file *)
| EACCES        (* the file cannot be read *)
| SyntaxError.  (* JSON.parse rejects the text *)

(** The result of a call that can throw. *)
Inductive outcome (A : Type) : Type :=
| Returned (a : A)
| Thrown (e : error).

Arguments Returned {A} a.
Arguments Thrown {A} e.

Definition bind (A B : Type) (c : outcome A) (k : A -> outcome B)
  : outcome B :=
  match c with
  | Returned a => k a
  | Thrown e => Thrown e
  end.

(** [try { c } catch { h }] *)
Definition try_catch (A : Type) (c : outcome A) (h : error -> A) : A :=
  match c with
  | Returned a => a
  | Thrown e => h e
  end.

Section Store.

(** The fields of a quote other than [id] and [createdAt], as they arrive
    in [req.body]; the route overwrites an [id] or a [createdAt] of the
    body. *)
Variable Payload : Type.

(** [new Date(t).toISOString()] *)
Variable toISOString : Z -> string.

Record Quote : Type := {
  payload : Payload;
  id : string;
  createdAt : string
}.

(** The text of [data/quotes.json], up to what [JSON.parse] makes of it. *)
Inductive content : Type :=
| Json (quotes : list Quote)   (* the serialization of [quotes] *)
| Garbage (raw : string).      (* text that is not JSON *)

Inductive file : Type :=
| Absent
| Unreadable
| Data (c : content).

(** The disk: the document, and the number of [fs.writeFile] calls made
    on it so far. *)
Record disk : Type := {
  quotes_json : file;
  writes : nat
}.

Definition fs_readFile (d : disk) : outcome content :=
  match quotes_json d with
  | Absent => Thrown ENOENT
  | Unreadable => Thrown EACCES
  | Data c => Returned c
  end.

Definition fs_writeFile (c : content) (d : disk) : disk :=
  {| quotes_json := Data c; writes := S (writes d) |}.

Definition JSON_parse (c : content) : outcome (list Quote) :=
  match c with
  | Json quotes => Returned quotes
  | Garbage _ => Thrown SyntaxError
  end.

Definition JSON_stringify (quotes : list Quote) : content := Json quotes.

(** *** Helper functions *)

Definition readQuotes (d : disk) : list Quote :=
  try_catch
    (bind (fs_readFile d) (fun data => JSON_parse data))
    (fun _ => []).

Definition writeQuotes (quotes : list Quote) (d : disk) : disk :=
  fs_writeFile (JSON_stringify quotes) d.

(** *** Routes *)

Inductive response : Type :=
| Ok200 (quotes : list Quote)
| Created201 (q : Quote)
| NoContent204
| NotFound404 (error : string).

(** [app.get("/quotes")] *)
Definition get_quotes (d : disk) : disk * response :=
  let quotes := readQuotes d in
  (d, Ok200 quotes).

(** The record [app.post("/quotes")] builds; [now] and [now'] are the
    clock readings of [Date.now()] and of [new Date()]. *)
Definition newQuote (body : Payload) (now now' : Z) : Quote :=
  {| payload := body;
     id := toString now;
     createdAt := toISOString now' |}.

(** [app.post("/quotes")] *)
Definition post_quotes (body : Payload) (now now' : Z) (d : disk)
  : disk * response :=
  let newQuote := newQuote body now now' in
  let quotes := readQuotes d in
  let quotes := newQuote :: quotes in      (* quotes.unshift(newQuote) *)
  let d := writeQuotes quotes d in
  (d, Created201 newQuote).

(** The callback of the filter, [(q) => q.id !== req.params.id]. *)
Definition other_id (params_id : string) (q : Quote) : bool :=
  negb (id q =? params_id)%string.

(** [app.delete("/quotes/:id")] *)
Definition delete_quotes (params_id : string) (d : disk) : disk * response :=
  let quotes := readQuotes d in
  let filtered := filter (other_id params_id) quotes in
  if (List.length filtered =? List.length quotes)%nat
  then (d, NotFound404 "Not found")
  else
    let d := writeQuotes filtered d in
    (d, NoContent204).

(** *** Runs of the server *)

Inductive request : Type :=
| GET_quotes
| POST_quotes (body : Payload) (now now' : Z)
| DELETE_quotes (params_id : string).

Definition handle (r : request) (d : disk) : disk * response :=
  match r with
  | GET_quotes => get_quotes d
  | POST_quotes body now now' => post_quotes body now now' d
  | DELETE_quotes params_id => delete_quotes params_id d
  end.

(** The disk after the requests [rs], handled in order. *)
Fixpoint run (rs : list request) (d : disk) : disk :=
  match rs with
  | [] => d
  | r :: rs' => run rs' (fst (handle r d))
  end.

(** The records created by [rs], the latest first, in front of [older]. *)
Fixpoint created (rs : list request) (older : list Quote) : list Quote :=
  match rs with
  | [] => older
  | POST_quotes body now now' :: rs' =>
      created rs' (newQuote body now now' :: older)
  | _ :: rs' => created rs' older
  end.

(** The clock readings [Date.now()] of the creates of [rs], in order. *)
Fixpoint clocks (rs : list request) : list Z :=
  match rs with
  | [] => []
  | POST_quotes _ now _ :: rs' => now :: clocks rs'
  | _ :: rs' => clocks rs'
  end.

(** The store before its first request: no document yet. *)
Definition fresh : disk := {| quotes_json := Absent; writes := 0 |}.

(** The collection a list answers with, its ids, and whether a record of
    it has the id [i]. *)
Definition list_ (d : disk) : list Quote := readQuotes d.

Definition ids (d : disk) : list string := map id (readQuotes d).

Definition present (i : string) (d : disk) : Prop :=
  exists q, In q (readQuotes d) /\ id q = i.

(** Every stored id is a clock reading, and none of those at which [rs]
    creates. *)
Definition before (rs : list request) (d : disk) : Prop :=
  forall i, In i (ids d) -> exists t, i = toString t /\ ~ In t (clocks rs).

End Store.

Arguments Garbage {Payload} raw.
Arguments Absent {Payload}.
Arguments Unreadable {Payload}.
Arguments NoContent204 {Payload}.
Arguments NotFound404 {Payload} error.
Arguments GET_quotes {Payload}.
Arguments DELETE_quotes {Payload} params_id.
Arguments fresh {Payload}.

End Server.

(** ** What the two versions share *)

(** The two versions of [applyQuote] differ in the coercion of the form
    fields only ([safeNum] in the first, [num] in the second).  [calculate]
    is their common computation over that coercion; [CalculatorFacts] proves
    that each version is an instance of it. *)

Module Shared.
Import JS App.
Local Open Scope js_scope.

Section Calculate.

Variable coerce : value -> number.
Variable Math_pow : number -> number -> number.

Definition payment_of (baseLoanAmount monthlyRate termMonths : number)
  : number :=
  if (termMonths <=? Fin 0) || (baseLoanAmount <=? Fin 0) then Fin 0
  else if monthlyRate === Fin 0 then round2 (baseLoanAmount / termMonths)
  else
    let factor := Math_pow (Fin 1 + monthlyRate) (neg termMonths) in
    round2 ((baseLoanAmount * monthlyRate) / (Fin 1 - factor)).

Definition calculate (f : QuoteForm) : QuoteResult :=
  let selling := coerce (sellingPrice f) in
  let taxRate := coerce (taxRate f) / Fin 100 in
  let yearlyRate := coerce (rate f) / Fin 100 in
  let termMonths := coerce (term f) in
  let outOfPocket := coerce (outOfPocket f) in
  let taxes := round2 (selling * taxRate) in
  let baseLoanAmount := round2 (selling + taxes - outOfPocket) in
  let monthlyRate := yearlyRate / Fin 12 in
  let payment := payment_of baseLoanAmount monthlyRate termMonths in
  let totalLoanAmount := round2 (payment * termMonths) in
  let interest := round2 (totalLoanAmount - baseLoanAmount) in
  {| taxes := taxes;
     baseLoanAmount := baseLoanAmount;
     interest := interest;
     totalLoanAmount := totalLoanAmount;
     payment := payment |}.

(** The synchronizer: a selling-price edit followed by a cost or profit
    edit, on the three linked fields. *)
Definition profit_after_price_edit (f : QuoteForm) : number :=
  round2 (coerce (sellingPrice f) - coerce (cost f)).

Definition price_after_round_trip (f : QuoteForm) : number :=
  round2 (coerce (cost f) + coerce (VNumber (profit_after_price_edit f))).

End Calculate.

End Shared.

(** ** Rounding in binary64 *)

Module Binary64.
Local Open Scope bool_scope.
Local Open Scope float_scope.

(** From [2^52] on every binary64 value is an integer. *)
Definition two52 : float := 4503599627370496.

(** The floor of [a], for [0 <= a < 2^52]: adding and subtracting [2^52]
    rounds [a] to an integer, which is the floor or the integer above. *)
Definition floor_small (a : float) : float :=
  let r := (a + two52) - two52 in
  if a <? r then r - 1 else r.

(** [Math.round]: [NaN], the infinities, the zeros and the values from
    [2^52] on are answered as they are; otherwise the nearest integer, a
    tie going to the one closer to plus infinity (and [-0] for a result of
    zero from below). *)
Definition Math_round (x : float) : float :=
  if is_nan x || is_infinity x || (x =? 0) || (two52 <=? abs x) then x
  else if x <? 0 then
    let a := abs x in
    let f := floor_small a in
    - (if 0.5 <? a - f then f + 1 else f)
  else
    let f := floor_small x in
    if 0.5 <=? x - f then f + 1 else f.

Definition round2 (value : float) : float :=
  Math_round (value * 100) / 100.

(** The binary64 value of an integer, exact below [2^53] in magnitude. *)
Definition of_Z (z : Z) : float :=
  match z with
  | Z0 => 0
  | Zpos _ => of_uint63 (Uint63.of_Z z)
  | Zneg p => - of_uint63 (Uint63.of_Z (Zpos p))
  end.

(** The amount of [z] cents, as the program holds it. *)
Definition cents (z : Z) : float := of_Z z / 100.

(** [n] integers from [lo] on, [step] apart. *)
Fixpoint every (step lo : Z) (n : nat) : list Z :=
  match n with
  | O => []
  | S n' => lo :: every step (lo + step)%Z n'
  end.

(** [Math.round (k + 0.5)] is [k + 1]. *)
Definition half_goes_up (k : Z) : bool :=
  Math_round (of_Z k + 0.5) =? of_Z (k + 1).

(** [round2 ((2 n + 1) / 8)] is [25 n + 13] cents. *)
Definition eighth_goes_up (n : Z) : bool :=
  round2 (of_Z (2 * n + 1) / 8) =? cents (25 * n + 13).

(** [round2 (round2 v)] is [round2 v], at [v] a thousandth of [m]. *)
Definition rounded_stays (m : Z) : bool :=
  let r := round2 (of_Z m / 1000) in
  round2 r =? r.

(** The synchronizer from a selling price of [a] cents and a cost of [b]
    cents: the profit, and the selling price set back from it. *)
Definition price_restored (a b : Z) : bool :=
  let profit := round2 (cents a - cents b) in
  (profit =? cents (a - b)) && (round2 (cents b + profit) =? cents a).

(** The synchronizer from a cost of [a] cents and a profit of [b] cents:
    the selling price, and the profit set back from it. *)
Definition profit_restored (a b : Z) : bool :=
  let selling := round2 (cents a + cents b) in
  (selling =? cents (a + b)) && (round2 (selling - cents a) =? cents b).

(** The calculator at a zero rate, on a principal of [z] cents over [n]
    months; [p] is the payment in cents. *)
Definition share_payment (z n : Z) : float := round2 (cents z / of_Z n).

Definition share_in_cents (z n : Z) : Z :=
  match Prim2SF (Math_round (share_payment z n * 100)) with
  | S754_finite false m e => Z.shiftl (Zpos m) e
  | S754_finite true m e => - Z.shiftl (Zpos m) e
  | _ => 0
  end.

Definition even_share (z n : Z) : bool :=
  let p := share_in_cents z n in
  let payment := share_payment z n in
  let total := round2 (payment * of_Z n) in
  (payment =? cents p) && (Z.abs (2 * (n * p - z)) <=? n)%Z
  && (total =? cents (n * p))
  && (round2 (total - cents z) =? cents (n * p - z)).

(** All pairs of two lists satisfy [f]. *)
Definition all_pairs (f : Z -> Z -> bool) (l l' : list Z) : bool :=
  forallb (fun a => forallb (f a) l') l.

End Binary64.

(** ** The specification's rounding policy, and the inputs studied below *)

Module Spec.
Import JS.
Local Open Scope Q_scope.

(** Round-half-away-from-zero at 2 decimals, following the words of the
    specification: the magnitude is rounded to the nearest cent, a tie
    going up, and the sign is put back. *)
Definition round_half_away_from_zero (v : number) : number :=
  match v with
  | Fin q =>
      if Qlt_le_dec q 0
      then Fin (- (inject_Z (Qfloor (- q * 100 + (1 # 2))) / 100))
      else Fin (inject_Z (Qfloor (q * 100 + (1 # 2))) / 100)
  | _ => v
  end.

(** The result the specification's concrete scenario expects for the
    default form, [pow] standing for exponentiation. *)
Definition default_quote (pow : number -> number -> number)
  : App.QuoteResult :=
  let payment :=
    App.round2
      (Fin 28536.45 * Fin 0.00475
       / (Fin 1 - pow (Fin 1.00475) (Fin (-36))))%js in
  let totalLoanAmount := App.round2 (payment * Fin 36)%js in
  {| App.taxes := Fin 2130.45;
     App.baseLoanAmount := Fin 28536.45;
     App.interest := App.round2 (totalLoanAmount - Fin 28536.45)%js;
     App.totalLoanAmount := totalLoanAmount;
     App.payment := payment |}.

(** The degenerate quote of the specification: no payment, nothing to
    repay, and the interest the rounded opposite of the principal, with
    taxes and principal computed as usual from the form [f]. *)
Definition degenerate (coerce : value -> number) (f : App.QuoteForm)
    (r : App.QuoteResult) : Prop :=
  App.payment r = Fin 0 /\
  App.totalLoanAmount r =~ Fin 0 /\
  App.interest r =~ App.round2 (neg (App.baseLoanAmount r)) /\
  App.taxes r
  = App.round2
      (coerce (App.sellingPrice f) * (coerce (App.taxRate f) / Fin 100))%js /\
  App.baseLoanAmount r
  = App.round2
      (coerce (App.sellingPrice f) + App.taxes r
       - coerce (App.outOfPocket f))%js.

(** An amount that is a whole number of cents. *)
Definition whole_cents (x : number) : Prop :=
  exists z : Z, x =~ Fin (inject_Z z / 100).

(** A whole number of cents of at most 1,000,000,000.00 in magnitude. *)
Definition moderate_cents (x : number) : Prop :=
  exists z : Z,
    (Z.abs z <= 100000000000)%Z /\ x =~ Fin (inject_Z z / 100).

End Spec.

Module Scenario.
Import JS App.

(** The default session with another term. *)
Definition with_term (t : number) (s : session) : session :=
  with_form (set_term (VNumber t)) s.

(** A session whose selling price has a third decimal, and no cost. *)
Definition odd_price : session :=
  {| form :=
       {| cost := VNumber (Fin 0);
          profit := VNumber (Fin 1.234);
          sellingPrice := VNumber (Fin 1.234);
          term := VNumber (Fin 36);
          rate := VNumber (Fin 5.7);
          outOfPocket := VNumber (Fin 0);
          taxRate := VNumber (Fin 0);
          quoteName := "" |};
     result := App2.initial_result |}.

(** A form as an emptied input leaves it: the cost is the empty string. *)
Definition emptied_cost : session :=
  {| form :=
       {| cost := VString "";
          profit := VNumber (Fin 1500);
          sellingPrice := VNumber (Fin 28406);
          term := VNull;
          rate := VUndefined;
          outOfPocket := VNumber (Fin 2000);
          taxRate := VNumber (Fin 7.5);
          quoteName := "" |};
     result := App2.initial_result |}.

(** For the examples on the store, a quote carries its name only and the
    creation time is written as its millisecond count. *)
Definition stamp (t : Z) : string := Server.toString t.

Definition first_quote : string := "2025 Ford Escape".

Definition second_quote : string := "2024 Honda Civic".

(** Three saves a second apart, and a delete in between. *)
Definition spaced_saves : list (Server.request string) :=
  [Server.POST_quotes first_quote 1000 1000;
   Server.POST_quotes second_quote 2000 2000;
   Server.DELETE_quotes "1000";
   Server.POST_quotes first_quote 3000 3001].

End Scenario.

(** ** The page and the server *)

(** The functions of [App.vue] that talk to the server: [fetchQuotes],
    [saveQuote] and [deleteQuote], in both versions.  A [fetch] reaches
    the route of the server or not, and its response comes back or not;
    the ids passed to [deleteQuote] are taken to be safe in a URL, as the
    decimal ids the server issues are. *)

Module Client.
Import Server.

Inductive delivery : Type :=
| Delivered       (* the request is handled and the response arrives *)
| RequestLost     (* [fetch] rejects, the server has seen nothing *)
| ResponseLost.   (* the request is handled, then [fetch] rejects *)

Section Page.

Variable Payload : Type.
Variable toISOString : Z -> string.

(** [JSON.stringify({ ...form, ...result })], as [express.json()] hands it
    to the route in [req.body]. *)
Variable payload_of : App.session -> Payload.

Definition status (res : response Payload) : nat :=
  match res with
  | Ok200 _ => 200
  | Created201 _ => 201
  | NoContent204 => 204
  | NotFound404 _ => 404
  end.

(** [res.ok]: the status is in the range 200-299. *)
Definition ok (res : response Payload) : bool :=
  (200 <=? status res)%nat && (status res <=? 299)%nat.

(** [await fetch(...)]: the disk of the server afterwards, and the response
    unless [fetch] rejected. *)
Definition fetch (n : delivery) (r : request Payload) (d : disk Payload)
  : disk Payload * option (response Payload) :=
  match n with
  | Delivered => (fst (handle toISOString r d),
                  Some (snd (handle toISOString r d)))
  | RequestLost => (d, None)
  | ResponseLost => (fst (handle toISOString r d), None)
  end.

(** The reactive state of the page: the session and [savedQuotes]. *)
Record page : Type := {
  session : App.session;
  savedQuotes : list (Quote Payload)
}.

Definition set_savedQuotes (quotes : list (Quote Payload)) (p : page)
  : page :=
  {| session := session p; savedQuotes := quotes |}.

Definition with_session (g : App.session -> App.session) (p : page)
  : page :=
  {| session := g (session p); savedQuotes := savedQuotes p |}.

(** The page, and the disk of the server it talks to. *)
Definition world : Type := (page * disk Payload)%type.

(** *** First version *)

(** [fetchQuotes]: a rejected [fetch] and a response that is not ok are
    logged; [res.json()] of an empty body throws into the same [catch]. *)
Definition fetchQuotes (n : delivery) (w : world) : world :=
  let (p, d) := w in
  let (d, res) := fetch n GET_quotes d in
  match res with
  | None => (p, d)
  | Some res =>
      if negb (ok res) then (p, d)
      else
        match res with
        | Ok200 data => (set_savedQuotes data p, d)
        | _ => (p, d)
        end
  end.

(** [saveQuote]; [now] and [now'] are the clock readings of the server. *)
Definition saveQuote (n : delivery) (now now' : Z) (w : world) : world :=
  let (p, d) := w in
  let payload := payload_of (session p) in
  let (d, res) := fetch n (POST_quotes payload now now') d in
  match res with
  | None => (p, d)
  | Some res =>
      if negb (ok res) then (p, d)
      else
        match res with
        | Created201 saved =>
            (* savedQuotes.value.unshift(saved) *)
            (set_savedQuotes (saved :: savedQuotes p) p, d)
        | _ => (p, d)
        end
  end.

Definition deleteQuote (n : delivery) (id : string) (w : world) : world :=
  let (p, d) := w in
  let (d, res) := fetch n (DELETE_quotes id) d in
  match res with
  | None => (p, d)
  | Some res =>
      if negb (ok res) && negb (status res =? 204)%nat then (p, d)
      else (set_savedQuotes (filter (other_id id) (savedQuotes p)) p, d)
  end.

(** *** Second version *)

(** [savedQuotes.value = res.ok ? await res.json() : []] *)
Definition fetchQuotes2 (n : delivery) (w : world) : world :=
  let (p, d) := w in
  let (d, res) := fetch n GET_quotes d in
  match res with
  | None => (p, d)
  | Some res =>
      if ok res then
        match res with
        | Ok200 data => (set_savedQuotes data p, d)
        | _ => (p, d)
        end
      else (set_savedQuotes [] p, d)
  end.

Definition saveQuote2 (n : delivery) (now now' : Z) (w : world) : world :=
  let (p, d) := w in
  let (d, res) :=
    fetch n (POST_quotes (payload_of (session p)) now now') d in
  match res with
  | None => (p, d)
  | Some res =>
      if ok res then
        match res with
        | Created201 saved => (set_savedQuotes (saved :: savedQuotes p) p, d)
        | _ => (p, d)
        end
      else (p, d)
  end.

(** The second version does not look at the response. *)
Definition deleteQuote2 (n : delivery) (id : string) (w : world) : world :=
  let (p, d) := w in
  let (d, res) := fetch n (DELETE_quotes id) d in
  match res with
  | None => (p, d)
  | Some _ =>
      (set_savedQuotes (filter (other_id id) (savedQuotes p)) p, d)
  end.

(** *** What the user does *)

Inductive action : Type :=
| FetchQuotes (n : delivery)
| SaveQuote (n : delivery) (now now' : Z)
| DeleteQuote (n : delivery) (id : string)
| Local (g : App.session -> App.session).
    (* an edit, Apply or View: the session only *)

Definition delivery_of (a : action) : delivery :=
  match a with
  | FetchQuotes n | SaveQuote n _ _ | DeleteQuote n _ => n
  | Local _ => Delivered
  end.

Definition act (a : action) (w : world) : world :=
  match a with
  | FetchQuotes n => fetchQuotes n w
  | SaveQuote n now now' => saveQuote n now now' w
  | DeleteQuote n id => deleteQuote n id w
  | Local g => (with_session g (fst w), snd w)
  end.

Definition act2 (a : action) (w : world) : world :=
  match a with
  | FetchQuotes n => fetchQuotes2 n w
  | SaveQuote n now now' => saveQuote2 n now now' w
  | DeleteQuote n id => deleteQuote2 n id w
  | Local g => (with_session g (fst w), snd w)
  end.

Fixpoint play (acts : list action) (w : world) : world :=
  match acts with
  | [] => w
  | a :: acts' => play acts' (act a w)
  end.

Fixpoint play2 (acts : list action) (w : world) : world :=
  match acts with
  | [] => w
  | a :: acts' => play2 acts' (act2 a w)
  end.

(** The list on the page is the collection of the server. *)
Definition mirrored (w : world) : Prop :=
  savedQuotes (fst w) = readQuotes (snd w).

End Page.

End Client.

(** A page and a server for the examples: the body of a save is the name
    of the quote. *)

Module ClientScenario.
Import Server Client.

Definition payload_of (s : App.session) : string :=
  App.quoteName (App.form s).

(** A page that has just been opened, and a server without a document. *)
Definition opened : world string :=
  ({| session := App.initial; savedQuotes := [] |}, fresh).

(** A visit: the list is fetched, a quote is saved, a save does not reach
    the server, the cost is edited, a second quote is saved, the first one
    is deleted, and so is an id nobody has. *)
Definition visit : list action :=
  [FetchQuotes Delivered;
   SaveQuote Delivered 1000 1000;
   SaveQuote RequestLost 1500 1500;
   Local App.onCostChange;
   SaveQuote Delivered 2000 2000;
   DeleteQuote Delivered "1000";
   DeleteQuote Delivered "1234"].

(** A page that still lists a quote the server no longer has. *)
Definition stale : world string :=
  ({| session := App.initial;
      savedQuotes :=
        [newQuote Scenario.stamp Scenario.first_quote 1000 1000] |},
   fresh).

End ClientScenario.

(** ** [form] and [result] as objects *)

(** [viewQuote] of the second version copies every property of the quote
    into [form] and into [result], and [saveQuote] sends the properties of
    both: here the two reactive objects are the lists of their properties,
    the latest assignment first. *)

Module Obj.
Import JS.

Definition obj : Type := list (string * value).

(** [o[k]]: the latest assignment of [k], [undefined] without one. *)
Fixpoint get (k : string) (o : obj) : value :=
  match o with
  | [] => VUndefined
  | (k', v) :: o' => if (k' =? k)%string then v else get k o'
  end.

(** [k in o] *)
Fixpoint has (k : string) (o : obj) : bool :=
  match o with
  | [] => false
  | (k', _) :: o' => (k' =? k)%string || has k o'
  end.

(** [o[k] = v] *)
Definition set (k : string) (v : value) (o : obj) : obj := (k, v) :: o.

(** [Object.assign(target, source)] *)
Definition assign (target source : obj) : obj := source ++ target.

(** [{ ...a, ...b }] *)
Definition spread2 (a b : obj) : obj := assign (assign [] a) b.

(** The two reactive objects of the page. *)
Record reactive : Type := {
  form : obj;
  result : obj
}.

Definition form_keys : list string :=
  ["cost"; "profit"; "sellingPrice"; "term"; "rate"; "outOfPocket";
   "taxRate"; "quoteName"]%string.

Definition result_keys : list string :=
  ["taxes"; "baseLoanAmount"; "interest"; "totalLoanAmount";
   "payment"]%string.

(** The state of a fresh page (second version). *)
Definition initial : reactive :=
  {| form :=
       [("cost", VNumber (Fin 26906));
        ("profit", VNumber (Fin 1500));
        ("sellingPrice", VNumber (Fin 28406));
        ("term", VNumber (Fin 36));
        ("rate", VNumber (Fin 5.7));
        ("outOfPocket", VNumber (Fin 2000));
        ("taxRate", VNumber (Fin 7.5));
        ("quoteName", VString "2025 Ford Escape")]%string;
     result :=
       [("taxes", VNumber (Fin 0));
        ("baseLoanAmount", VNumber (Fin 0));
        ("interest", VNumber (Fin 0));
        ("totalLoanAmount", VNumber (Fin 0));
        ("payment", VNumber (Fin 0))]%string |}.

(** The five assignments of [applyQuote] to [result], whatever the values
    computed. *)
Definition applied (taxes baseLoanAmount payment totalLoanAmount
    interest : value) (res : obj) : obj :=
  set "interest" interest
    (set "totalLoanAmount" totalLoanAmount
       (set "payment" payment
          (set "baseLoanAmount" baseLoanAmount
             (set "taxes" taxes res)))).

(** The body [saveQuote] sends, before [JSON.stringify]. *)
Definition payload (r : reactive) : obj := spread2 (form r) (result r).

(** [viewQuote] of the first version: the thirteen fields, one by one. *)
Definition viewQuote (quote : obj) (r : reactive) : reactive :=
  {| form :=
       set "quoteName" (get "quoteName" quote)
         (set "taxRate" (get "taxRate" quote)
            (set "outOfPocket" (get "outOfPocket" quote)
               (set "rate" (get "rate" quote)
                  (set "term" (get "term" quote)
                     (set "sellingPrice" (get "sellingPrice" quote)
                        (set "profit" (get "profit" quote)
                           (set "cost" (get "cost" quote) (form r))))))));
     result :=
       set "payment" (get "payment" quote)
         (set "totalLoanAmount" (get "totalLoanAmount" quote)
            (set "interest" (get "interest" quote)
               (set "baseLoanAmount" (get "baseLoanAmount" quote)
                  (set "taxes" (get "taxes" quote) (result r))))) |}.

(** [viewQuote] of the second version:
    [Object.assign(form, quote); Object.assign(result, quote)]. *)
Definition viewQuote2 (quote : obj) (r : reactive) : reactive :=
  {| form := assign (form r) quote;
     result := assign (result r) quote |}.

(** A quote as the server answers it. *)
Definition saved_escape : obj :=
  [("cost", VNumber (Fin 26906));
   ("profit", VNumber (Fin 1500));
   ("sellingPrice", VNumber (Fin 28406));
   ("term", VNumber (Fin 36));
   ("rate", VNumber (Fin 5.7));
   ("outOfPocket", VNumber (Fin 2000));
   ("taxRate", VNumber (Fin 7.5));
   ("quoteName", VString "2025 Ford Escape");
   ("taxes", VNumber (Fin 2130.45));
   ("baseLoanAmount", VNumber (Fin 28536.45));
   ("interest", VNumber (Fin 2576.91));
   ("totalLoanAmount", VNumber (Fin 31113.36));
   ("payment", VNumber (Fin 864.26));
   ("id", VString "1730540000123");
   ("createdAt", VString "2024-11-02T09:33:20.123Z")]%string.

End Obj.

(** ** A predicate on the disk *)

Module StoreProps.
Import Server.

(** The document holds the serialization of a list of quotes. *)
Definition is_json (Payload : Type) (d : disk Payload) : Prop :=
  exists quotes, quotes_json d = Data (Json quotes).

End StoreProps.

(** ** Predicates on forms and amounts *)

Module Props.
Import JS App.

(** A whole number of cents, or one of [NaN], [Infinity], [-Infinity]. *)
Definition cents_or_special (x : number) : Prop :=
  match x with
  | Fin _ => Spec.whole_cents x
  | _ => True
  end.

Definition all_cents_or_special (r : QuoteResult) : Prop :=
  cents_or_special (taxes r) /\
  cents_or_special (baseLoanAmount r) /\
  cents_or_special (interest r) /\
  cents_or_special (totalLoanAmount r) /\
  cents_or_special (payment r).

(** No numeric field of the form is [NaN]. *)
Definition no_NaN_field (f : QuoteForm) : Prop :=
  Number_isNaN (cost f) = false /\
  Number_isNaN (profit f) = false /\
  Number_isNaN (sellingPrice f) = false /\
  Number_isNaN (term f) = false /\
  Number_isNaN (rate f) = false /\
  Number_isNaN (outOfPocket f) = false /\
  Number_isNaN (taxRate f) = false.

(** A number of at most a billion in magnitude, or one of [NaN],
    [Infinity], [-Infinity]. *)
Definition moderate (v : number) : Prop :=
  match v with
  | Fin q => (Qabs q <= 1000000000)%Q
  | _ => True
  end.

(** A quote without interest on a principal of [z] cents over [n] months:
    the payment is a number [p] of cents within half a cent of the share
    [z / n], the total is the [n] payments, and the interest is what the
    total exceeds the principal by. *)
Definition even_share (z n : Z) (r : QuoteResult) : Prop :=
  exists p : Z,
    (Z.abs (2 * (n * p - z)) <= n)%Z /\
    payment r =~ Fin (inject_Z p / 100) /\
    totalLoanAmount r =~ Fin (inject_Z (n * p) / 100) /\
    interest r =~ Fin (inject_Z (n * p - z) / 100).

(** A form with a zero rate, 36 months and 100.00 to finance. *)
Definition zero_rate : session :=
  {| form :=
       {| cost := VNumber (Fin 100);
          profit := VNumber (Fin 0);
          sellingPrice := VNumber (Fin 100);
          term := VNumber (Fin 36);
          rate := VNumber (Fin 0);
          outOfPocket := VNumber (Fin 0);
          taxRate := VNull;
          quoteName := "" |};
     result := App2.initial_result |}.

(** A form whose down payment exceeds the price with taxes. *)
Definition overpaid : session :=
  {| form :=
       {| cost := VNumber (Fin 900);
          profit := VNumber (Fin 100);
          sellingPrice := VNumber (Fin 1000);
          term := VNumber (Fin 36);
          rate := VNumber (Fin 5.7);
          outOfPocket := VNumber (Fin 2000);
          taxRate := VNumber (Fin 7.5);
          quoteName := "" |};
     result := App2.initial_result |}.

End Props.

(* ================================================================= *)
(** * Part II: properties *)
(* ================================================================= *)

(** ** Numbers: [JS.same] is a congruence *)

Module JSFacts.
Import JS.
Local Open Scope Q_scope.

Lemma same_refl (x : number) : x =~ x.
Proof. destruct x; simpl; auto with qarith. Qed.

Lemma same_sym (x y : number) : x =~ y -> y =~ x.
Proof. destruct x, y; simpl; auto with qarith. Qed.

Lemma same_trans (x y z : number) : x =~ y -> y =~ z -> x =~ z.
Proof.
  destruct x, y, z; simpl; try tauto.
  intros H1 H2; now rewrite H1.
Qed.

#[export] Instance same_equivalence : Equivalence same.
Proof.
  split; [exact same_refl | exact same_sym | exact same_trans].
Qed.

Lemma same_Fin (p q : Q) : Fin p =~ Fin q <-> p == q.
Proof. reflexivity. Qed.

(** A number that is the same as a special value is that value. *)
Lemma same_NaN (x : number) : x =~ NaN -> x = NaN.
Proof. destruct x; simpl; tauto. Qed.

Ltac by_cases :=
  repeat match goal with
         | x : number |- _ => destruct x
         end;
  simpl in *; try tauto; try reflexivity.

#[export] Instance Fin_proper : Proper (Qeq ==> same) Fin.
Proof. intros p q H; exact H. Qed.

#[export] Instance signed_inf_proper : Proper (eq ==> same) signed_inf.
Proof. intros c c' <-; apply same_refl. Qed.

#[export] Instance neg_proper : Proper (same ==> same) neg.
Proof. intros x x' H; by_cases. now rewrite H. Qed.

#[export] Instance add_proper : Proper (same ==> same ==> same) add.
Proof. intros x x' H y y' H'; by_cases. now rewrite H, H'. Qed.

#[export] Instance sub_proper : Proper (same ==> same ==> same) sub.
Proof. intros x x' H y y' H'; unfold sub; now rewrite H, H'. Qed.

#[export] Instance mul_proper : Proper (same ==> same ==> same) mul.
Proof.
  intros x x' H y y' H'; by_cases;
    try (rewrite H; apply same_refl);
    try (rewrite H'; apply same_refl).
  now rewrite H, H'.
Qed.

Lemma Qeq_bool_comp (p p' q q' : Q) :
  p == p' -> q == q' -> Qeq_bool p q = Qeq_bool p' q'.
Proof.
  intros H H'.
  destruct (Qeq_bool p q) eqn:E, (Qeq_bool p' q') eqn:E'; trivial.
  - apply Qeq_bool_iff in E. apply Qeq_bool_neq in E'.
    exfalso; apply E'. now rewrite <- H, <- H'.
  - apply Qeq_bool_iff in E'. apply Qeq_bool_neq in E.
    exfalso; apply E. now rewrite H, H'.
Qed.

Lemma Qle_bool_comp (p p' q q' : Q) :
  p == p' -> q == q' -> Qle_bool p q = Qle_bool p' q'.
Proof.
  intros H H'.
  destruct (Qle_bool p q) eqn:E, (Qle_bool p' q') eqn:E'; trivial.
  - apply Qle_bool_iff in E. rewrite H, H' in E.
    apply Qle_bool_iff in E. congruence.
  - apply Qle_bool_iff in E'. rewrite <- H, <- H' in E'.
    apply Qle_bool_iff in E'. congruence.
Qed.

#[export] Instance div_proper : Proper (same ==> same ==> same) div.
Proof.
  intros [| | |p] [| | |p'] H [| | |q] [| | |q'] H';
    simpl in *; try tauto; try reflexivity.
  - destruct (Qlt_le_dec q 0), (Qlt_le_dec q' 0); simpl; trivial; lra.
  - destruct (Qlt_le_dec q 0), (Qlt_le_dec q' 0); simpl; trivial; lra.
  - rewrite (Qeq_bool_comp H' (Qeq_refl 0)).
    destruct (Qeq_bool q' 0) eqn:E.
    + rewrite H; apply same_refl.
    + simpl. now rewrite H, H'.
Qed.

#[export] Instance le_proper : Proper (same ==> same ==> eq) le.
Proof. intros x x' H y y' H'; by_cases. now apply Qle_bool_comp. Qed.

#[export] Instance strict_eq_proper : Proper (same ==> same ==> eq) strict_eq.
Proof. intros x x' H y y' H'; by_cases. now apply Qeq_bool_comp. Qed.

#[export] Instance Math_round_proper : Proper (same ==> same) Math_round.
Proof.
  intros [| | |p] [| | |q] H; simpl in H; try tauto; try apply same_refl.
  assert (E : Qfloor (p + (1 # 2)) = Qfloor (q + (1 # 2))).
  { apply Qfloor_comp. now rewrite H. }
  unfold Math_round. rewrite E. apply same_refl.
Qed.

#[export] Instance pow_exact_proper :
  Proper (same ==> same ==> same) pow_exact.
Proof.
  intros b b' Hb e e' He; unfold pow_exact.
  destruct e as [| | |y], e' as [| | |y']; simpl in He; try tauto.
  rewrite (Qeq_bool_comp He (Qeq_refl 0)).
  destruct (Qeq_bool y' 0); [reflexivity|].
  destruct b as [| | |x], b' as [| | |x']; simpl in Hb; try tauto.
  rewrite (Qfloor_comp _ _ He).
  rewrite (Qeq_bool_comp (Qeq_refl (inject_Z (Qfloor y'))) He).
  destruct (Qeq_bool (inject_Z (Qfloor y')) y'); simpl; [|exact I].
  rewrite (Qeq_bool_comp Hb (Qeq_refl 0)), (Qle_bool_comp He (Qeq_refl 0)).
  destruct (Qeq_bool x' 0 && Qle_bool y' 0); simpl; [exact I|].
  now rewrite Hb.
Qed.

(** *** Arithmetic facts used below *)

Lemma neg_as_sub (x : number) : (Fin 0 - x)%js =~ neg x.
Proof. by_cases. lra. Qed.

(** [x * NaN] and [NaN * x] are [NaN]. *)
Lemma mul_NaN_r (x : number) : (x * NaN)%js = NaN.
Proof. now destruct x. Qed.

Lemma sub_NaN_l (x : number) : (NaN - x)%js = NaN.
Proof. now destruct x. Qed.

(** The floor of an integer plus a fraction in [[0, 1)]. *)
Lemma Qfloor_shift (z : Z) (r : Q) :
  0 <= r -> r < 1 -> Qfloor (inject_Z z + r) = z.
Proof.
  intros H0 H1.
  assert (L := Qfloor_le (inject_Z z + r)).
  assert (U := Qlt_floor (inject_Z z + r)).
  set (f := Qfloor (inject_Z z + r)) in *.
  assert (A : inject_Z f < inject_Z (z + 1)).
  { rewrite inject_Z_plus. change (inject_Z 1) with 1. lra. }
  assert (B : inject_Z z < inject_Z (f + 1)) by lra.
  rewrite <- Zlt_Qlt in A, B. lia.
Qed.

Lemma Math_round_Fin (q : Q) :
  Math_round (Fin q) = Fin (inject_Z (Qfloor (q + (1 # 2)))).
Proof. reflexivity. Qed.

(** A tie goes to the integer above, whatever the sign. *)
Lemma Math_round_tie (q : Q) (z : Z) :
  q == inject_Z z + (1 # 2) -> Math_round (Fin q) =~ Fin (inject_Z (z + 1)).
Proof.
  intros H. rewrite Math_round_Fin. apply same_Fin.
  rewrite (Qfloor_comp (q + (1 # 2)) (inject_Z (z + 1) + 0)).
  - rewrite Qfloor_shift; [reflexivity | lra | lra].
  - rewrite H, inject_Z_plus. change (inject_Z 1) with 1. lra.
Qed.

End JSFacts.

(** ** The helpers of the form *)

Module AppFacts.
Import JS JSFacts App.
Local Open Scope Q_scope.

(** *** [round2] *)

Lemma round2_Fin (q : Q) :
  round2 (Fin q) = Fin (inject_Z (Qfloor (q * 100 + (1 # 2))) / 100).
Proof. reflexivity. Qed.

Lemma round2_NaN : round2 NaN = NaN.
Proof. reflexivity. Qed.

Lemma round2_PosInf : round2 PosInf = PosInf.
Proof. reflexivity. Qed.

Lemma round2_NegInf : round2 NegInf = NegInf.
Proof. reflexivity. Qed.

#[export] Instance round2_proper : Proper (same ==> same) round2.
Proof. intros x y H; unfold round2; now rewrite H. Qed.

(** The second version's [round] is the same function. *)
Lemma round_is_round2 (v : number) : App2.round v = round2 v.
Proof. reflexivity. Qed.

(** A whole number of cents is left as it is. *)
Lemma round2_cents (q : Q) (z : Z) :
  q == inject_Z z / 100 -> round2 (Fin q) =~ Fin (inject_Z z / 100).
Proof.
  intros H. rewrite round2_Fin. apply same_Fin.
  rewrite (Qfloor_comp (q * 100 + (1 # 2)) (inject_Z z + (1 # 2))).
  - rewrite Qfloor_shift; [reflexivity | lra | lra].
  - rewrite H. field.
Qed.

Lemma round2_zero (q : Q) : q == 0 -> round2 (Fin q) =~ Fin 0.
Proof.
  intros H. rewrite (round2_cents (z := 0%Z)).
  - apply same_Fin. reflexivity.
  - rewrite H. reflexivity.
Qed.

(** [round2] answers the cent count [z] with [z - 1/2 <= 100 q < z + 1/2]. *)
Lemma round2_nearest (q : Q) :
  exists z : Z,
    round2 (Fin q) =~ Fin (inject_Z z / 100) /\
    inject_Z z - (1 # 2) <= q * 100 < inject_Z z + (1 # 2).
Proof.
  exists (Qfloor (q * 100 + (1 # 2))). split.
  - rewrite round2_Fin. apply same_refl.
  - assert (L := Qfloor_le (q * 100 + (1 # 2))).
    assert (U := Qlt_floor (q * 100 + (1 # 2))).
    rewrite inject_Z_plus in U. change (inject_Z 1) with 1 in U.
    split; lra.
Qed.

(** Half a cent above [z] cents goes to [z + 1] cents. *)
Lemma round2_tie (q : Q) (z : Z) :
  q == (inject_Z z + (1 # 2)) / 100 ->
  round2 (Fin q) =~ Fin (inject_Z (z + 1) / 100).
Proof.
  intros H. unfold round2.
  assert (E : (Fin q * Fin 100)%js =~ Fin (inject_Z z + (1 # 2))).
  { apply same_Fin. rewrite H. field. }
  rewrite E, (Math_round_tie (z := z)) by reflexivity.
  apply same_refl.
Qed.

(** *** [safeNum] and [num] *)

Lemma safeNum_spec (v : value) :
  safeNum v = match v with
              | VNumber NaN => Fin 0
              | VNumber n => n
              | _ => Fin 0
              end.
Proof. destruct v as [| | | |[| | |q]]; reflexivity. Qed.

Lemma num_spec (v : value) :
  App2.num v = match v with
               | VNumber n => n
               | _ => Fin 0
               end.
Proof. destruct v; reflexivity. Qed.

(** [safeNum] never answers [NaN]. *)
Lemma safeNum_not_NaN (v : value) : safeNum v <> NaN.
Proof. rewrite safeNum_spec. destruct v as [| | | |[| | |q]]; discriminate. Qed.

(** On a number that is not [NaN] the two coercions agree. *)
Lemma num_safeNum (v : value) :
  Number_isNaN v = false -> App2.num v = safeNum v.
Proof.
  rewrite safeNum_spec, num_spec.
  destruct v as [| | | |[| | |q]]; simpl; congruence.
Qed.

End AppFacts.

(** ** Rounding to cents *)

Section Rounding.
Import JS JSFacts App AppFacts.
Local Open Scope Q_scope.


(** The same happens at [-0.125], where binary arithmetic is exact too. *)
Example round2_eighth_below_zero :
  round2 (Fin (-0.125)) =~ Fin (-0.12) /\
  Spec.round_half_away_from_zero (Fin (-0.125)) =~ Fin (-0.13).
Proof. split; vm_compute; reflexivity. Qed.



End Rounding.

(** ** The calculator *)

Module CalculatorFacts.
Import JS JSFacts App AppFacts.
Local Open Scope Q_scope.
Local Open Scope js_scope.

(** *** Each version is an instance of [Shared.calculate] *)

Lemma applyQuote_calculate (pow : number -> number -> number) (s : session) :
  applyQuote pow s =
  {| form := form s; result := Shared.calculate safeNum pow (form s) |}.
Proof. reflexivity. Qed.

Lemma applyQuote2_calculate (pow : number -> number -> number) (s : session) :
  App2.applyQuote pow s =
  {| form := form s; result := Shared.calculate App2.num pow (form s) |}.
Proof.
  unfold App2.applyQuote, Shared.calculate, Shared.payment_of,
    App2.with_result.
  cbn [form result].
  cbn [App2.set_taxes App2.set_baseLoanAmount taxes baseLoanAmount].
  change App2.round with round2.
  repeat match goal with
         | |- context [if ?c then _ else _] => destruct c
         end; reflexivity.
Qed.

(** [applyQuote] reads the form through [safeNum] only. *)
Lemma applyQuote_reads_through_safeNum
    (pow : number -> number -> number) (s s' : session) :
  safeNum (sellingPrice (form s)) = safeNum (sellingPrice (form s')) ->
  safeNum (taxRate (form s)) = safeNum (taxRate (form s')) ->
  safeNum (rate (form s)) = safeNum (rate (form s')) ->
  safeNum (term (form s)) = safeNum (term (form s')) ->
  safeNum (outOfPocket (form s)) = safeNum (outOfPocket (form s')) ->
  result (applyQuote pow s) = result (applyQuote pow s').
Proof.
  intros H1 H2 H3 H4 H5.
  rewrite !applyQuote_calculate. cbn [result].
  unfold Shared.calculate. now rewrite H1, H2, H3, H4, H5.
Qed.

(** A field that is missing, not a number, or [NaN] is read as [0] by
    [safeNum]. *)
Lemma safeNum_coerces_to_zero (v : value) :
  typeof v <> "number"%string \/ Number_isNaN v = true -> safeNum v = Fin 0.
Proof.
  rewrite safeNum_spec.
  destruct v as [| | | |[| | |q]]; simpl; trivial;
    intros [H|H]; congruence.
Qed.

Section Generic.

Variable coerce : value -> number.
Variable Math_pow : number -> number -> number.

(** *** A term that is at most zero *)

Lemma payment_of_degenerate_term (base rate : number) (t : Q) :
  (t <= 0)%Q -> Shared.payment_of Math_pow base rate (Fin t) = Fin 0.
Proof.
  intros Ht. unfold Shared.payment_of.
  replace (Fin t <=? Fin 0) with true; [reflexivity|].
  symmetry. now apply Qle_bool_iff.
Qed.

Lemma calculate_degenerate_term (f : QuoteForm) (t : Q) :
  (t <= 0)%Q -> coerce (term f) = Fin t ->
  Spec.degenerate coerce f (Shared.calculate coerce Math_pow f).
Proof.
  intros Ht Hf. unfold Spec.degenerate, Shared.calculate.
  cbn [taxes baseLoanAmount interest totalLoanAmount payment].
  rewrite Hf, payment_of_degenerate_term by assumption.
  assert (T : round2 (Fin 0 * Fin t) =~ Fin 0).
  { apply round2_zero. lra. }
  repeat split; trivial.
  now rewrite T, neg_as_sub.
Qed.

(** *** The default form *)

Hypothesis coerce_Fin : forall q : Q, coerce (VNumber (Fin q)) = Fin q.
Hypothesis Math_pow_proper : Proper (same ==> same ==> same) Math_pow.

Lemma default_taxes : round2 (Fin 28406 * (Fin 7.5 / Fin 100)) =~ Fin 2130.45.
Proof. vm_compute. reflexivity. Qed.

Lemma default_base :
  round2 (Fin 28406 + Fin 2130.45 - Fin 2000) =~ Fin 28536.45.
Proof. vm_compute. reflexivity. Qed.

Lemma default_monthlyRate : Fin 5.7 / Fin 100 / Fin 12 =~ Fin 0.00475.
Proof. vm_compute. reflexivity. Qed.

Lemma default_growth : Fin 1 + Fin 0.00475 =~ Fin 1.00475.
Proof. vm_compute. reflexivity. Qed.

Lemma default_exponent : neg (Fin 36) =~ Fin (-36).
Proof. vm_compute. reflexivity. Qed.

Lemma calculate_default :
  same_result (Shared.calculate coerce Math_pow initial_form)
    (Spec.default_quote Math_pow).
Proof.
  unfold Shared.calculate, Shared.payment_of, initial_form.
  cbn [sellingPrice taxRate rate term outOfPocket].
  rewrite !coerce_Fin.
  repeat match goal with
         | |- context [if ?c then _ else _] =>
             replace c with false by (vm_compute; reflexivity)
         end.
  unfold same_result, Spec.default_quote.
  cbn [taxes baseLoanAmount interest totalLoanAmount payment].
  rewrite default_taxes, default_base, default_monthlyRate, default_growth,
    default_exponent.
  repeat split; reflexivity.
Qed.

(** *** The synchronizer on whole cents *)

Lemma round_trip_whole_cents (f : QuoteForm) :
  Spec.whole_cents (coerce (sellingPrice f)) ->
  Spec.whole_cents (coerce (cost f)) ->
  Shared.price_after_round_trip coerce f =~ coerce (sellingPrice f).
Proof.
  intros [a Ha] [b Hb].
  unfold Shared.price_after_round_trip, Shared.profit_after_price_edit.
  destruct (coerce (sellingPrice f)) as [| | |p]; simpl in Ha; try tauto.
  destruct (coerce (cost f)) as [| | |c]; simpl in Hb; try tauto.
  change (Fin p - Fin c) with (Fin (p + - c)).
  rewrite round2_Fin, coerce_Fin.
  change (Fin c + Fin ?x) with (Fin (c + x)).
  assert (E : Qfloor ((p + - c) * 100 + (1 # 2)) = (a - b)%Z).
  { rewrite (Qfloor_comp _ (inject_Z (a - b) + (1 # 2))).
    - apply Qfloor_shift; lra.
    - unfold Z.sub. rewrite Ha, Hb, inject_Z_plus, inject_Z_opp. field. }
  rewrite E. rewrite (round2_cents (z := a)).
  - apply same_Fin. now rewrite Ha.
  - unfold Z.sub. rewrite Hb, inject_Z_plus, inject_Z_opp. field.
Qed.

End Generic.

Lemma moderate_cents_whole (x : number) :
  Spec.moderate_cents x -> Spec.whole_cents x.
Proof. intros (z & _ & Hz). now exists z. Qed.

(** The two coercions leave a finite number as it is. *)
Lemma safeNum_Fin (q : Q) : safeNum (VNumber (Fin q)) = Fin q.
Proof. reflexivity. Qed.

Lemma num_Fin (q : Q) : App2.num (VNumber (Fin q)) = Fin q.
Proof. reflexivity. Qed.

(** The selling price after the round trip, in each version. *)
Lemma round_trip_first (s : session) :
  sellingPrice
    (form (updateSellingFromCostAndProfit (updateProfitFromCostAndSelling s)))
  = VNumber (Shared.price_after_round_trip safeNum (form s)).
Proof. reflexivity. Qed.

Lemma round_trip_second (s : session) :
  sellingPrice (form (App2.updateSelling (App2.updateProfit s)))
  = VNumber (Shared.price_after_round_trip App2.num (form s)).
Proof. reflexivity. Qed.

End CalculatorFacts.

Section Calculator.
Import JS JSFacts App AppFacts CalculatorFacts.
Local Open Scope Q_scope.
Local Open Scope js_scope.

(** C2: on the default form (cost 26906, profit 1500, selling price 28406,
    term 36, rate 5.7, out of pocket 2000, tax rate 7.5) both versions of
    the calculator return taxes 2130.45, principal 28536.45, payment
    [round2 (28536.45 * 0.00475 / (1 - 1.00475 ^ -36))], total
    [round2 (payment * 36)] and interest [round2 (total - 28536.45)], each
    step using the rounded value of the one before.  [Math.pow] is any
    function of the values of its arguments. *)
Theorem default_form_quote (Math_pow : number -> number -> number) :
  Proper (same ==> same ==> same) Math_pow ->
  same_result (result (applyQuote Math_pow initial))
    (Spec.default_quote Math_pow) /\
  same_result (result (App2.applyQuote Math_pow App2.initial))
    (Spec.default_quote Math_pow).
Proof.
  intros Hpow.
  rewrite applyQuote_calculate, applyQuote2_calculate. cbn [form result].
  split; apply calculate_default;
    first [exact Hpow | exact safeNum_Fin | exact num_Fin].
Qed.

(** With exact powers the default payment is 864.26. *)
Lemma default_form_quote_witness :
  Proper (same ==> same ==> same) pow_exact /\
  same_result (result (applyQuote pow_exact initial))
    (Spec.default_quote pow_exact) /\
  same_result (result (App2.applyQuote pow_exact App2.initial))
    (Spec.default_quote pow_exact).
Proof.
  split.
  - exact pow_exact_proper.
  - apply (default_form_quote pow_exact_proper).
Defined.

Example default_form_exact :
  same_result (Spec.default_quote pow_exact)
    {| taxes := Fin 2130.45;
       baseLoanAmount := Fin 28536.45;
       interest := Fin 2576.91;
       totalLoanAmount := Fin 31113.36;
       payment := Fin 864.26 |}.
Proof.
  unfold same_result.
  cbn [taxes baseLoanAmount interest totalLoanAmount payment].
  split; [|split; [|split; [|split]]]; vm_compute; reflexivity.
Qed.

(** C4, as stated, fails for the term [-Infinity]: it is at most zero and
    the payment is [0], but [0 * -Infinity] is [NaN], so the total and the
    interest are [NaN]. *)
Lemma minus_infinity_term :
  let s := Scenario.with_term NegInf initial in
  let r := result (applyQuote pow_exact s) in
  (safeNum (term (form s)) <=? Fin 0) = true /\
  payment r = Fin 0 /\
  totalLoanAmount r = NaN /\
  interest r = NaN /\
  ~ Spec.degenerate safeNum (form s) r.
Proof.
  cbv zeta.
  split; [|split; [|split; [|split]]]; try (vm_compute; reflexivity).
  intros (_ & H & _). vm_compute in H. exact H.
Qed.

(** C4, amended: for every form whose term, as the calculator reads it, is
    a finite number [t <= 0], both versions return payment [0], total [0]
    and interest [round2 (- baseLoanAmount)], the taxes and the principal
    being computed as usual from selling price, tax rate and out of
    pocket. *)
Theorem degenerate_term
    (Math_pow : number -> number -> number) (s : session) (t : Q) :
  (t <= 0)%Q ->
  (safeNum (term (form s)) = Fin t ->
   Spec.degenerate safeNum (form s) (result (applyQuote Math_pow s))) /\
  (App2.num (term (form s)) = Fin t ->
   Spec.degenerate App2.num (form s) (result (App2.applyQuote Math_pow s))).
Proof.
  intros Ht.
  rewrite applyQuote_calculate, applyQuote2_calculate. cbn [result].
  split; intros Hs; now apply calculate_degenerate_term with (t := t).
Qed.

(** A form whose term is empty: the term is read as [0]. *)
Lemma degenerate_term_witness :
  (0 <= 0)%Q /\
  safeNum (term (form Scenario.emptied_cost)) = Fin 0 /\
  App2.num (term (form Scenario.emptied_cost)) = Fin 0 /\
  Spec.degenerate safeNum (form Scenario.emptied_cost)
    (result (applyQuote pow_exact Scenario.emptied_cost)) /\
  Spec.degenerate App2.num (form Scenario.emptied_cost)
    (result (App2.applyQuote pow_exact Scenario.emptied_cost)).
Proof.
  destruct (degenerate_term pow_exact Scenario.emptied_cost (Qle_refl 0))
    as [H1 H2].
  split; [apply Qle_refl|].
  split; [reflexivity|]. split; [reflexivity|].
  split; [apply H1 | apply H2]; reflexivity.
Defined.

(** The first version reads whatever is missing, not a number or [NaN] in
    a field as [0], so a [NaN] term or rate gives the result of a zero term
    or rate. *)
Lemma safeNum_NaN_as_zero
    (Math_pow : number -> number -> number) (s : session) :
  result (applyQuote Math_pow (with_form (set_term (VNumber NaN)) s))
  = result (applyQuote Math_pow (with_form (set_term (VNumber (Fin 0))) s)) /\
  result (applyQuote Math_pow (with_form (set_rate (VNumber NaN)) s))
  = result (applyQuote Math_pow (with_form (set_rate (VNumber (Fin 0))) s)).
Proof. split; apply applyQuote_reads_through_safeNum; reflexivity. Qed.

(** C5 fails on the second version: [num] tests the type only and lets
    [NaN] through, where [safeNum] answers [0].  With the term [NaN] on the
    default form the total and the interest are [NaN]; with the term [0]
    they are [0] and [-28536.45]. *)
Theorem num_lets_NaN_through (Math_pow : number -> number -> number) :
  App2.num (VNumber NaN) = NaN /\
  safeNum (VNumber NaN) = Fin 0 /\
  (let r := result (App2.applyQuote Math_pow
                      (Scenario.with_term NaN App2.initial)) in
   totalLoanAmount r = NaN /\ interest r = NaN) /\
  (let r := result (App2.applyQuote Math_pow
                      (Scenario.with_term (Fin 0) App2.initial)) in
   payment r = Fin 0 /\
   totalLoanAmount r =~ Fin 0 /\
   interest r =~ Fin (-28536.45)).
Proof.
  split; [reflexivity|]. split; [reflexivity|].
  rewrite !applyQuote2_calculate. cbn [result]. split.
  - unfold Shared.calculate.
    cbn [totalLoanAmount interest Scenario.with_term with_form form set_term
           term].
    change (App2.num (VNumber NaN)) with NaN.
    rewrite mul_NaN_r. change (round2 NaN) with NaN.
    rewrite sub_NaN_l. split; reflexivity.
  - cbv zeta. split; [|split]; vm_compute; reflexivity.
Qed.




End Calculator.

(** ** The quote store *)

Module StoreFacts.
Import Server.

(** *** Lists *)

Section Lists.

Variable A : Type.

Lemma Subseq_refl (l : list A) : Subseq l l.
Proof. induction l; constructor; assumption. Qed.

Lemma Subseq_trans (l1 l2 l3 : list A) :
  Subseq l1 l2 -> Subseq l2 l3 -> Subseq l1 l3.
Proof.
  intros H12 H23. revert l1 H12.
  induction H23 as [|x l2 l3 _ IH|x l2 l3 _ IH]; intros l1 H12.
  - assumption.
  - inversion H12; subst.
    + apply Subseq_keep. now apply IH.
    + apply Subseq_drop. now apply IH.
  - apply Subseq_drop. now apply IH.
Qed.

Lemma Subseq_filter (f : A -> bool) (l : list A) : Subseq (filter f l) l.
Proof.
  induction l as [|x l IH]; simpl.
  - constructor.
  - destruct (f x); constructor; assumption.
Qed.

(** [filter] keeps the length exactly when it drops nothing. *)
Lemma filter_length_all (f : A -> bool) (l : list A) :
  List.length (filter f l) = List.length l <->
  (forall x, In x l -> f x = true).
Proof.
  induction l as [|x l IH]; simpl.
  - split; [intros _ y [] | reflexivity].
  - assert (Hle := filter_length_le f l).
    destruct (f x) eqn:E; simpl; split.
    + intros H y [<-|Hy]; [assumption|].
      apply IH; [lia | assumption].
    + intros H. f_equal. apply IH. intros y Hy. apply H. now right.
    + intros H. lia.
    + intros H. specialize (H x (or_introl eq_refl)). congruence.
Qed.

End Lists.

(** *** The clock reading as an id *)

Lemma toString_injective (m n : Z) : toString m = toString n -> m = n.
Proof.
  unfold toString. intros H.
  assert (E : Z.to_int m = Z.to_int n).
  { apply (f_equal NilEmpty.int_of_string) in H.
    rewrite !NilEmpty.isi in H. congruence. }
  apply (f_equal Z.of_int) in E.
  now rewrite !DecimalZ.of_to in E.
Qed.

Section Store.

Variable Payload : Type.
Variable toISOString : Z -> string.

Local Abbreviation Quote := (Quote Payload).
Local Abbreviation disk := (disk Payload).

(** *** Reading and writing *)

Lemma readQuotes_spec (d : disk) :
  readQuotes d = match quotes_json d with
                 | Data (Json quotes) => quotes
                 | _ => []
                 end.
Proof.
  unfold readQuotes, fs_readFile.
  destruct (quotes_json d) as [| |[quotes|raw]]; reflexivity.
Qed.

Lemma readQuotes_writeQuotes (quotes : list Quote) (d : disk) :
  readQuotes (writeQuotes quotes d) = quotes.
Proof. reflexivity. Qed.

(** *** The routes *)

Lemma get_quotes_spec (d : disk) : get_quotes d = (d, Ok200 (readQuotes d)).
Proof. reflexivity. Qed.

Lemma post_quotes_spec (body : Payload) (now now' : Z) (d : disk) :
  post_quotes toISOString body now now' d
  = (writeQuotes (newQuote toISOString body now now' :: readQuotes d) d,
     Created201 (newQuote toISOString body now now')).
Proof. reflexivity. Qed.

Lemma other_id_true (i : string) (q : Quote) :
  other_id i q = true <-> id q <> i.
Proof.
  unfold other_id. rewrite negb_true_iff.
  destruct (String.eqb_spec (id q) i); split; congruence.
Qed.

Lemma absent_all_other (i : string) (d : disk) :
  ~ present i d <-> (forall q, In q (readQuotes d) -> other_id i q = true).
Proof.
  unfold present. split.
  - intros H q Hq. apply other_id_true. intros E. apply H. now exists q.
  - intros H (q & Hq & E). apply (other_id_true i q); auto.
Qed.

Lemma present_dec (i : string) (d : disk) : present i d \/ ~ present i d.
Proof.
  unfold present.
  induction (readQuotes d) as [|q l IH].
  - right. intros (q & [] & _).
  - destruct (String.eqb_spec (id q) i) as [E|N].
    + left. exists q. split; [now left | assumption].
    + destruct IH as [(q' & Hq' & E')|IH].
      * left. exists q'. split; [now right | assumption].
      * right. intros (q' & [<-|Hq'] & E'); [contradiction|].
        apply IH. now exists q'.
Qed.

Lemma delete_quotes_not_found (i : string) (d : disk) :
  ~ present i d -> delete_quotes i d = (d, NotFound404 "Not found").
Proof.
  intros H.
  assert (A := proj1 (absent_all_other i d) H).
  apply (filter_length_all (other_id i)) in A.
  apply Nat.eqb_eq in A.
  unfold delete_quotes. now rewrite A.
Qed.

Lemma delete_quotes_found (i : string) (d : disk) :
  present i d ->
  delete_quotes i d
  = (writeQuotes (filter (other_id i) (readQuotes d)) d, NoContent204).
Proof.
  intros H. unfold delete_quotes.
  destruct (Nat.eqb_spec (List.length (filter (other_id i) (readQuotes d)))
              (List.length (readQuotes d))) as [E|N]; [|reflexivity].
  exfalso.
  exact (proj2 (absent_all_other i d) (proj1 (filter_length_all _ _) E) H).
Qed.

(** After a delete no record has the deleted id. *)
Lemma delete_quotes_absent (i : string) (d : disk) :
  ~ present i (fst (delete_quotes i d)).
Proof.
  destruct (present_dec i d) as [H|H].
  - rewrite (delete_quotes_found H). cbn [fst]. unfold present.
    rewrite readQuotes_writeQuotes.
    intros (q & Hq & E). apply filter_In in Hq. destruct Hq as [_ Hq].
    now apply other_id_true in Hq.
  - now rewrite (delete_quotes_not_found H).
Qed.

(** The record a create has just written is present. *)
Lemma post_quotes_present (body : Payload) (now now' : Z) (d : disk) :
  present (toString now) (fst (post_quotes toISOString body now now' d)).
Proof.
  rewrite post_quotes_spec. cbn [fst]. unfold present.
  rewrite readQuotes_writeQuotes.
  exists (newQuote toISOString body now now'). split; [now left | reflexivity].
Qed.

(** *** Runs *)

Lemma readQuotes_handle (r : request Payload) (d : disk) :
  Subseq (readQuotes (fst (handle toISOString r d)))
    (created toISOString [r] (readQuotes d)).
Proof.
  destruct r as [|body now now'|i]; cbn [handle created].
  - apply Subseq_refl.
  - rewrite post_quotes_spec. cbn [fst]. rewrite readQuotes_writeQuotes.
    apply Subseq_refl.
  - destruct (present_dec i d) as [H|H].
    + rewrite (delete_quotes_found H). cbn [fst].
      rewrite readQuotes_writeQuotes. apply Subseq_filter.
    + rewrite (delete_quotes_not_found H). apply Subseq_refl.
Qed.

Lemma created_mono (rs : list (request Payload)) (l l' : list Quote) :
  Subseq l l' ->
  Subseq (created toISOString rs l) (created toISOString rs l').
Proof.
  revert l l'. induction rs as [|[|body now now'|i] rs IH]; intros l l' H;
    cbn [created]; auto.
  apply IH. now constructor.
Qed.

Lemma created_cons (r : request Payload) (rs : list (request Payload))
    (l : list Quote) :
  created toISOString (r :: rs) l
  = created toISOString rs (created toISOString [r] l).
Proof. destruct r; reflexivity. Qed.

(** What is stored is what was created, the latest first, less what was
    deleted. *)
Lemma run_Subseq (rs : list (request Payload)) (d : disk) :
  Subseq (readQuotes (run toISOString rs d))
    (created toISOString rs (readQuotes d)).
Proof.
  revert d. induction rs as [|r rs IH]; intros d; cbn [run].
  - apply Subseq_refl.
  - eapply Subseq_trans; [apply IH|].
    rewrite (created_cons r rs).
    apply created_mono, readQuotes_handle.
Qed.

(** *** Ids *)

Lemma ids_post_quotes (body : Payload) (now now' : Z) (d : disk) :
  ids (fst (post_quotes toISOString body now now' d))
  = toString now :: ids d.
Proof. reflexivity. Qed.

(** A create at a clock reading that no stored id shows keeps the ids
    distinct. *)
Lemma post_quotes_NoDup (body : Payload) (now now' : Z) (d : disk) :
  ~ In (toString now) (ids d) -> NoDup (ids d) ->
  NoDup (ids (fst (post_quotes toISOString body now now' d))).
Proof. intros H N. rewrite ids_post_quotes. now constructor. Qed.

Lemma delete_quotes_NoDup (i : string) (d : disk) :
  NoDup (ids d) -> NoDup (ids (fst (delete_quotes i d))).
Proof.
  intros N. destruct (present_dec i d) as [H|H].
  - rewrite (delete_quotes_found H). cbn [fst]. unfold ids in *.
    rewrite readQuotes_writeQuotes.
    induction (readQuotes d) as [|q l IH]; simpl; [constructor|].
    inversion N as [|? ? Hq Nl]; subst.
    destruct (other_id i q); simpl; auto.
    constructor; auto.
    intros Hin. apply Hq. apply in_map_iff in Hin.
    destruct Hin as (q' & E & Hq'). apply filter_In in Hq'.
    apply in_map_iff. exists q'. tauto.
  - now rewrite (delete_quotes_not_found H).
Qed.

Lemma ids_delete_quotes (i j : string) (d : disk) :
  In j (ids (fst (delete_quotes i d))) -> In j (ids d).
Proof.
  destruct (present_dec i d) as [H|H].
  - rewrite (delete_quotes_found H). cbn [fst]. unfold ids.
    rewrite readQuotes_writeQuotes, !in_map_iff.
    intros (q & E & Hq). apply filter_In in Hq. exists q. tauto.
  - now rewrite (delete_quotes_not_found H).
Qed.

(** As long as the creates come at clock readings that differ from one
    another and from those of the stored ids, the ids stay distinct. *)
Lemma run_NoDup (rs : list (request Payload)) (d : disk) :
  NoDup (clocks rs) -> before rs d -> NoDup (ids d) ->
  NoDup (ids (run toISOString rs d)).
Proof.
  revert d. induction rs as [|[|body now now'|i] rs IH]; intros d S B N;
    cbn [run handle clocks] in *.
  - assumption.
  - now apply IH.
  - inversion S as [|? ? L S']; subst. apply IH; trivial.
    + intros j Hj. rewrite ids_post_quotes in Hj. destruct Hj as [<-|Hj].
      * now exists now.
      * destruct (B j Hj) as (t & E & F). exists t. split; trivial.
        intros Hin. apply F. now right.
    + apply post_quotes_NoDup; trivial.
      intros Hin. destruct (B _ Hin) as (t & E & F).
      apply toString_injective in E. apply F. now left.
  - apply IH; trivial.
    + intros j Hj. apply B. now apply ids_delete_quotes in Hj.
    + now apply delete_quotes_NoDup.
Qed.

End Store.

End StoreFacts.

Section QuoteStore.
Import Server StoreFacts.

Variable Payload : Type.
Variable toISOString : Z -> string.

Local Abbreviation disk := (disk Payload).
Local Abbreviation post_quotes := (post_quotes toISOString).
Local Abbreviation newQuote := (newQuote toISOString).

(** The id is the millisecond clock reading, so two creates at the same
    reading [now] store two records with the same id, whatever the store
    held before. *)
Lemma same_millisecond_same_id
    (body body' : Payload) (now now1 now2 : Z) (d : disk) :
  let d' :=
    run toISOString
      [POST_quotes body now now1; POST_quotes body' now now2] d in
  snd (post_quotes body now now1 d) = Created201 (newQuote body now now1) /\
  snd (post_quotes body' now now2 (fst (post_quotes body now now1 d)))
  = Created201 (newQuote body' now now2) /\
  id (newQuote body' now now2) = id (newQuote body now now1) /\
  ids d' = toString now :: toString now :: ids d /\
  ~ NoDup (ids d').
Proof.
  cbv zeta. repeat split.
  intros N. change (NoDup (toString now :: toString now :: ids d)) in N.
  inversion N as [|? ? Hin _]; subst. apply Hin. now left.
Qed.

(** C1, amended: a create gives the new record the decimal digits of the
    millisecond clock reading as id, and different readings give different
    ids; so over any run from the empty store in which no two creates read
    the same millisecond, the ids of the persisted collection are pairwise
    distinct. *)
Theorem distinct_ids_at_distinct_readings (rs : list (request Payload)) :
  NoDup (clocks rs) ->
  NoDup (ids (run toISOString rs fresh)) /\
  (forall (body : Payload) (now now' : Z),
      id (newQuote body now now') = toString now) /\
  (forall m n : Z, toString m = toString n -> m = n).
Proof.
  intros S. split; [|split].
  - apply run_NoDup; trivial.
    + intros i [].
    + constructor.
  - reflexivity.
  - exact toString_injective.
Qed.

(** C7: a create writes the new record in front of the records it read, so
    the list that follows starts with the record the create returned (and
    with its id) and goes on with the earlier records in their order.  Over
    any run, what is stored is the records created during the run, the
    latest first, followed by the records of the start, less the deleted
    ones. *)
Theorem create_prepends
    (body : Payload) (now now' : Z) (d : disk) (rs : list (request Payload)) :
  let q := newQuote body now now' in
  let d' := fst (post_quotes body now now' d) in
  snd (post_quotes body now now' d) = Created201 q /\
  snd (get_quotes d') = Ok200 (q :: list_ d) /\
  list_ d' = q :: list_ d /\
  option_map (@id Payload) (hd_error (list_ d')) = Some (id q) /\
  Subseq (list_ (run toISOString rs d))
    (created toISOString rs (list_ d)) /\
  Subseq (list_ (run toISOString rs fresh)) (created toISOString rs []).
Proof.
  cbv zeta. repeat split.
  - apply run_Subseq.
  - apply (run_Subseq toISOString rs fresh).
Qed.

(** C8: a delete answers "deleted" (204) exactly when a record with the id
    is in the collection, and "not found" (404) exactly when none is; so
    the first delete of a freshly created id answers "deleted" and the
    second one "not found". *)
Theorem delete_outcome
    (i : string) (d : disk) (body : Payload) (now now' : Z) :
  (snd (delete_quotes i d) = NoContent204 <-> present i d) /\
  (snd (delete_quotes i d) = NotFound404 "Not found" <-> ~ present i d) /\
  let d1 := fst (post_quotes body now now' d) in
  let d2 := fst (delete_quotes (toString now) d1) in
  snd (delete_quotes (toString now) d1) = NoContent204 /\
  snd (delete_quotes (toString now) d2) = NotFound404 "Not found".
Proof.
  assert (F : forall j (e : disk),
             present j e -> snd (delete_quotes j e) = NoContent204).
  { intros j e H. now rewrite (delete_quotes_found H). }
  assert (N : forall j (e : disk),
             ~ present j e ->
             snd (delete_quotes j e) = NotFound404 "Not found").
  { intros j e H. now rewrite (delete_quotes_not_found H). }
  split; [|split].
  - split; [|apply F].
    intros E. destruct (present_dec i d) as [H|H]; [assumption|].
    rewrite (N _ _ H) in E. discriminate E.
  - split; [|apply N].
    intros E H. rewrite (F _ _ H) in E. discriminate E.
  - cbv zeta. split.
    + apply F, post_quotes_present.
    + apply N, delete_quotes_absent.
Qed.

(** C9: whatever the state of the document, the list answers 200 and
    leaves the disk as it is: with the stored quotes when the document
    holds JSON, and with the empty collection when the document is absent,
    unreadable or not JSON. *)
Theorem list_never_fails (d : disk) (n : nat) (raw : string) :
  get_quotes d
  = (d, Ok200 match quotes_json d with
              | Data (Json quotes) => quotes
              | Absent | Unreadable | Data (Garbage _) => []
              end) /\
  snd (get_quotes ({| quotes_json := Absent; writes := n |} : disk))
  = Ok200 [] /\
  snd (get_quotes ({| quotes_json := Unreadable; writes := n |} : disk))
  = Ok200 [] /\
  snd (get_quotes
         ({| quotes_json := Data (Garbage raw); writes := n |} : disk))
  = Ok200 [].
Proof.
  split; [|repeat split].
  rewrite get_quotes_spec, readQuotes_spec.
  destruct (quotes_json d) as [| |[quotes|raw']]; reflexivity.
Qed.

(** C10: a delete of an id that no record has answers "not found" and
    leaves the disk as it was: the document is the one that was read and no
    write was made. *)
Theorem delete_not_found_writes_nothing (i : string) (d : disk) :
  ~ present i d ->
  delete_quotes i d = (d, NotFound404 "Not found") /\
  quotes_json (fst (delete_quotes i d)) = quotes_json d /\
  writes (fst (delete_quotes i d)) = writes d.
Proof.
  intros H. rewrite (delete_quotes_not_found H). repeat split.
Qed.

End QuoteStore.

Section QuoteStoreExamples.
Import Server StoreFacts.

(** C1, as stated, fails for two saves within the millisecond
    1730540000123 on a store with no document yet: the second create
    returns the id the first record has, and the persisted ids are not
    distinct. *)
Lemma same_millisecond_on_fresh_store :
  let d1 :=
    fst (post_quotes Scenario.stamp Scenario.first_quote
           1730540000123 1730540000123 fresh) in
  let r2 :=
    post_quotes Scenario.stamp Scenario.second_quote
      1730540000123 1730540000123 d1 in
  ids d1 = ["1730540000123"]%string /\
  snd r2
  = Created201 {| payload := Scenario.second_quote;
                  id := "1730540000123";
                  createdAt := "1730540000123" |} /\
  ids (fst r2) = ["1730540000123"; "1730540000123"]%string /\
  ~ NoDup (ids (fst r2)).
Proof.
  cbv zeta. split; [|split; [|split]]; try (vm_compute; reflexivity).
  apply (same_millisecond_same_id Scenario.stamp
           Scenario.first_quote Scenario.second_quote
           1730540000123 1730540000123 1730540000123 fresh).
Qed.

(** Three saves a second apart, and a delete in between. *)
Lemma distinct_ids_at_distinct_readings_witness :
  NoDup (clocks Scenario.spaced_saves) /\
  ids (run Scenario.stamp Scenario.spaced_saves fresh)
  = ["3000"; "2000"]%string /\
  NoDup (ids (run Scenario.stamp Scenario.spaced_saves fresh)).
Proof.
  assert (S : NoDup (clocks Scenario.spaced_saves)).
  { repeat constructor; simpl; intuition discriminate. }
  split; [exact S|]. split; [vm_compute; reflexivity|].
  exact (proj1 (distinct_ids_at_distinct_readings
                  Scenario.stamp Scenario.spaced_saves S)).
Defined.

(** Deleting that id removes both records. *)
Example delete_removes_both :
  ids (run Scenario.stamp
         [POST_quotes Scenario.first_quote 1730540000123 1730540000123;
          POST_quotes Scenario.second_quote 1730540000123 1730540000123;
          DELETE_quotes "1730540000123"]
         fresh)
  = [].
Proof. vm_compute. reflexivity. Qed.

(** Saving two quotes in sequence, then listing, yields them newest first;
    deleting the older one leaves only the newer one. *)
Example two_saves_then_delete :
  ids (run Scenario.stamp
         [POST_quotes Scenario.first_quote 1000 1000;
          POST_quotes Scenario.second_quote 2000 2000]
         fresh)
  = ["2000"; "1000"]%string /\
  ids (run Scenario.stamp
         [POST_quotes Scenario.first_quote 1000 1000;
          POST_quotes Scenario.second_quote 2000 2000;
          DELETE_quotes "1000"]
         fresh)
  = ["2000"]%string.
Proof. split; vm_compute; reflexivity. Qed.

(** On a store with no document, no record has the id 1730540000123. *)
Lemma delete_not_found_writes_nothing_witness :
  ~ present "1730540000123" (@fresh string) /\
  delete_quotes "1730540000123" (@fresh string)
  = (fresh, NotFound404 "Not found") /\
  quotes_json (fst (delete_quotes "1730540000123" (@fresh string)))
  = Absent /\
  writes (fst (delete_quotes "1730540000123" (@fresh string))) = 0%nat.
Proof.
  assert (A : ~ present "1730540000123" (@fresh string)).
  { intros (q & [] & _). }
  split; [exact A|].
  exact (delete_not_found_writes_nothing A).
Defined.

End QuoteStoreExamples.

(** ** Evaluations in binary64 *)

Section Binary64Checks.
Import Binary64.
Local Open Scope float_scope.
#[local] Set Warnings "-inexact-float".

Example Math_round_ties :
  [Math_round 0.5; Math_round 1.5; Math_round 2.5;
   Math_round (-0.5); Math_round (-1.5); Math_round (-2.5);
   Math_round 2.4; Math_round (-2.6); Math_round 0.49999999999999994]
  = [1; 2; 3; -0; -1; -2; 2; -3; 0].
Proof. vm_compute. reflexivity. Qed.

(** Half a cent, and an eighth, below zero: rounded towards zero. *)
Example round2_below_zero_binary64 :
  round2 (-0.005) = -0 /\ round2 (-0.125) = -0.12 /\ round2 0.125 = 0.13.
Proof. repeat split; vm_compute; reflexivity. Qed.

(** The total of a zero payment over the term [-Infinity]. *)
Example minus_infinity_term_binary64 :
  round2 (0 * neg_infinity) = nan.
Proof. vm_compute. reflexivity. Qed.

(** The synchronizer's round trip from cost 0 and selling price 1.234. *)
Example round_trip_third_decimal_binary64 :
  round2 (0 + round2 (1.234 - 0)) = 1.23.
Proof. vm_compute. reflexivity. Qed.

(** The taxes and the principal of the default form. *)
Example default_form_binary64 :
  round2 (28406 * (7.5 / 100)) = 2130.45 /\
  round2 (28406 + 2130.45 - 2000) = 28536.45 /\
  5.7 / 100 / 12 = 0.00475.
Proof. repeat split; vm_compute; reflexivity. Qed.

(** Ties at inputs that binary64 holds exactly: [Math.round (k + 0.5)]
    for [k] around zero and at the ends of the range, and
    [round2 ((2 n + 1) / 8)]. *)
Example ties_go_up_binary64 :
  forallb half_goes_up
    (every 1 (-2000) 4001
     ++ [2 ^ 52 - 1; 2 ^ 52 - 2; - 2 ^ 52 + 1; - 2 ^ 52 + 2; 2 ^ 51])%Z
  = true /\
  forallb eighth_goes_up
    (every 1 (-2000) 4001
     ++ every 1 (2 ^ 40 - 50) 51 ++ every 1 (- 2 ^ 40) 51
     ++ every 5497558138 (- 2 ^ 40) 401)%Z
  = true.
Proof. split; vm_compute; reflexivity. Qed.

(** Where the product by [100] is not exact the cents may differ from the
    exact ones: [0.015 * 100] is [1.5] and [1.005 * 100] is below
    [100.5]. *)
Example inexact_products_binary64 :
  round2 0.015 = 0.02 /\ round2 1.005 = 1 /\ round2 (-1.005) = -1.
Proof. split; [|split]; vm_compute; reflexivity. Qed.

(** The synchronizer on whole cents up to a billion: every pair of a grid
    of amounts, in both directions. *)
Example round_trips_binary64 :
  let amounts :=
    (every 1 (-150) 301 ++ every 333333333 (-100000000000) 601
     ++ [100000000000; 99999999999; -99999999999])%Z in
  all_pairs price_restored amounts amounts = true /\
  all_pairs profit_restored amounts amounts = true.
Proof. split; vm_compute; reflexivity. Qed.

(** Rounding twice, at thousandths up to a billion. *)
Example rounded_stays_binary64 :
  forallb rounded_stays
    (every 1 (-2400) 4801 ++ every 3333333333 (-1000000000000) 601)%Z
  = true.
Proof. vm_compute. reflexivity. Qed.

(** A zero rate: principals up to a billion over 1 to 1200 months. *)
Example even_shares_binary64 :
  all_pairs even_share
    (every 1 1 60 ++ [10050; 10000; 2853645; 100000000000; 99999999999]
     ++ every 1234567891 1 81)%Z
    (every 1 1 1200)
  = true.
Proof. vm_compute. reflexivity. Qed.

(** Far beyond a billion the products by [100] are off by more than half
    a cent: the round trips and the second rounding change the amount. *)
Example beyond_the_range_binary64 :
  price_restored 1 10000000000000000 = false /\
  profit_restored 10000000000000000 1 = false /\
  (round2 (round2 38429116446710.125) =? round2 38429116446710.125) = false.
Proof. split; [|split]; vm_compute; reflexivity. Qed.

End Binary64Checks.

(* ================================================================= *)
(** * Part III: further properties of the code *)
(* ================================================================= *)

(** ** Rounding and the calculator *)

Module MoreCalculatorFacts.
Import JS JSFacts App AppFacts CalculatorFacts.
Local Open Scope Q_scope.
Local Open Scope js_scope.

Lemma whole_cents_zero : Spec.whole_cents (Fin 0).
Proof. exists 0%Z. apply same_Fin. reflexivity. Qed.

Lemma round2_cents_or_special (v : number) :
  Props.cents_or_special (round2 v).
Proof.
  destruct v as [| | |q].
  - rewrite round2_NaN. exact I.
  - rewrite round2_PosInf. exact I.
  - rewrite round2_NegInf. exact I.
  - rewrite round2_Fin. simpl.
    exists (Qfloor (q * 100 + (1 # 2))). apply same_refl.
Qed.

Lemma round2_of_whole_cents (x : Q) :
  Spec.whole_cents (Fin x) -> round2 (Fin x) =~ Fin x.
Proof.
  intros [z Hz].
  assert (E : (x == inject_Z z / 100)%Q) by exact Hz.
  rewrite (round2_cents (z := z)) by assumption.
  apply same_Fin. now rewrite E.
Qed.

Section Generic.

Variable coerce : value -> number.
Variable Math_pow : number -> number -> number.

Lemma payment_cents_or_special (base rate t : number) :
  Props.cents_or_special (Shared.payment_of Math_pow base rate t).
Proof.
  unfold Shared.payment_of.
  destruct ((t <=? Fin 0) || (base <=? Fin 0)).
  - exact whole_cents_zero.
  - destruct (rate === Fin 0); apply round2_cents_or_special.
Qed.

Lemma calculate_cents_or_special (f : QuoteForm) :
  Props.all_cents_or_special (Shared.calculate coerce Math_pow f).
Proof.
  unfold Props.all_cents_or_special, Shared.calculate.
  cbn [taxes baseLoanAmount interest totalLoanAmount payment].
  repeat split;
    first [apply round2_cents_or_special | apply payment_cents_or_special].
Qed.

Lemma payment_of_nonpositive_principal (base rate t : number) :
  (base <=? Fin 0) = true -> Shared.payment_of Math_pow base rate t = Fin 0.
Proof.
  intros H. unfold Shared.payment_of. now rewrite H, orb_true_r.
Qed.

Lemma calculate_nonpositive_principal (f : QuoteForm) :
  (baseLoanAmount (Shared.calculate coerce Math_pow f) <=? Fin 0) = true ->
  payment (Shared.calculate coerce Math_pow f) = Fin 0 /\
  forall t : Q,
    coerce (term f) = Fin t ->
    Spec.degenerate coerce f (Shared.calculate coerce Math_pow f).
Proof.
  unfold Spec.degenerate, Shared.calculate.
  cbn [taxes baseLoanAmount interest totalLoanAmount payment].
  intros H. rewrite payment_of_nonpositive_principal by exact H.
  split; [reflexivity|]. intros t Ht. rewrite Ht.
  assert (T : round2 (Fin 0 * Fin t) =~ Fin 0).
  { apply round2_zero. lra. }
  repeat split; trivial.
  now rewrite T, neg_as_sub.
Qed.

Lemma payment_of_zero_rate (base rate : number) (b t : Q) :
  base =~ Fin b -> rate =~ Fin 0 -> (0 < b)%Q -> (0 < t)%Q ->
  Shared.payment_of Math_pow base rate (Fin t) =~ round2 (Fin (b / t)).
Proof.
  intros Hb Hr Pb Pt. unfold Shared.payment_of.
  destruct base as [| | |b']; simpl in Hb; try tauto.
  destruct rate as [| | |r']; simpl in Hr; try tauto.
  replace (Fin t <=? Fin 0) with false.
  2:{ symmetry. apply not_true_is_false. intros E.
      apply Qle_bool_iff in E. lra. }
  replace (Fin b' <=? Fin 0) with false.
  2:{ symmetry. apply not_true_is_false. intros E.
      apply Qle_bool_iff in E. lra. }
  replace (Fin r' === Fin 0) with true.
  2:{ symmetry. now apply Qeq_bool_iff. }
  cbn [orb]. apply round2_proper.
  unfold div. replace (Qeq_bool t 0) with false.
  2:{ symmetry. apply not_true_is_false. intros E.
      apply Qeq_bool_iff in E. lra. }
  apply same_Fin. now rewrite Hb.
Qed.

(** A zero rate over a whole number of months. *)
Lemma calculate_even_share (f : QuoteForm) (z n : Z) :
  coerce (rate f) =~ Fin 0 ->
  coerce (term f) = Fin (inject_Z n) ->
  baseLoanAmount (Shared.calculate coerce Math_pow f)
  =~ Fin (inject_Z z / 100) ->
  (0 < z)%Z -> (0 < n)%Z ->
  Props.even_share z n (Shared.calculate coerce Math_pow f).
Proof.
  intros Hr Ht Hb Pz Pn.
  assert (Qz : (0 < inject_Z z)%Q).
  { change 0%Q with (inject_Z 0). now rewrite <- Zlt_Qlt. }
  assert (Qn : (0 < inject_Z n)%Q).
  { change 0%Q with (inject_Z 0). now rewrite <- Zlt_Qlt. }
  assert (Pb : (0 < inject_Z z / 100)%Q).
  { apply Qlt_shift_div_l; [reflexivity | lra]. }
  revert Hb. unfold Props.even_share, Shared.calculate.
  cbn [taxes baseLoanAmount interest totalLoanAmount payment].
  rewrite Ht.
  match goal with
  | |- round2 ?X =~ _ -> _ => set (base := round2 X)
  end.
  intros Hb.
  assert (M : coerce (rate f) / Fin 100 / Fin 12 =~ Fin 0).
  { rewrite Hr. apply same_Fin. reflexivity. }
  assert (P := payment_of_zero_rate base _ Hb M Pb Qn).
  destruct (round2_nearest (inject_Z z / 100 / inject_Z n)) as (p & Ep & L & U).
  rewrite Ep in P.
  assert (E : (inject_Z z / 100 / inject_Z n * 100
               == inject_Z z / inject_Z n)%Q) by (field; lra).
  rewrite E in L, U.
  assert (L' : ((inject_Z p - (1 # 2)) * inject_Z n <= inject_Z z)%Q).
  { apply Qmult_le_compat_r with (z := inject_Z n) in L; [|lra].
    assert (E' : (inject_Z z / inject_Z n * inject_Z n == inject_Z z)%Q)
      by (field; lra).
    now rewrite E' in L. }
  assert (U' : (inject_Z z < (inject_Z p + (1 # 2)) * inject_Z n)%Q).
  { apply Qmult_lt_compat_r with (z := inject_Z n) in U; [|lra].
    assert (E' : (inject_Z z / inject_Z n * inject_Z n == inject_Z z)%Q)
      by (field; lra).
    now rewrite E' in U. }
  assert (B : (Z.abs (2 * (n * p - z)) <= n)%Z).
  { assert (L2 : (inject_Z (2 * (n * p) - n) <= inject_Z (2 * z))%Q).
    { unfold Z.sub.
      rewrite inject_Z_plus, inject_Z_opp, !inject_Z_mult.
      change (inject_Z 2) with 2%Q. lra. }
    assert (U2 : (inject_Z (2 * z) < inject_Z (2 * (n * p) + n))%Q).
    { rewrite inject_Z_plus, !inject_Z_mult.
      change (inject_Z 2) with 2%Q. lra. }
    rewrite <- Zle_Qle in L2. rewrite <- Zlt_Qlt in U2. lia. }
  assert (HT : round2 (Shared.payment_of Math_pow base
                         (coerce (rate f) / Fin 100 / Fin 12)
                         (Fin (inject_Z n))
                       * Fin (inject_Z n))
               =~ Fin (inject_Z (n * p) / 100)).
  { rewrite P.
    change (Fin (inject_Z p / 100) * Fin (inject_Z n))
      with (Fin (inject_Z p / 100 * inject_Z n)).
    apply round2_cents. rewrite inject_Z_mult. field. }
  exists p. split; [exact B|]. split; [exact P|]. split; [exact HT|].
  rewrite HT, Hb.
  change (Fin (inject_Z (n * p) / 100) - Fin (inject_Z z / 100))
    with (Fin (inject_Z (n * p) / 100 + - (inject_Z z / 100))).
  apply round2_cents.
  unfold Z.sub. rewrite inject_Z_plus, inject_Z_opp. field.
Qed.

End Generic.

(** *** The synchronizer, from cost and profit *)

(** On whole cents the sum is kept exactly, and taking the cost away again
    gives the profit back. *)
Lemma sum_then_difference (c p : Q) :
  Spec.whole_cents (Fin c) -> Spec.whole_cents (Fin p) ->
  round2 (Fin c + Fin p) =~ Fin (c + p) /\
  round2 (round2 (Fin c + Fin p) - Fin c) =~ Fin p.
Proof.
  intros Hc Hp.
  assert (Hs : Spec.whole_cents (Fin (c + p))).
  { destruct Hc as [a Ha], Hp as [b Hb]. exists (a + b)%Z. apply same_Fin.
    assert (Ea : (c == inject_Z a / 100)%Q) by exact Ha.
    assert (Eb : (p == inject_Z b / 100)%Q) by exact Hb.
    rewrite Ea, Eb, inject_Z_plus. field. }
  assert (S : round2 (Fin c + Fin p) =~ Fin (c + p)).
  { change (Fin c + Fin p) with (Fin (c + p)).
    now apply round2_of_whole_cents. }
  split; [exact S|].
  rewrite S. change (Fin (c + p) - Fin c) with (Fin (c + p + - c)).
  assert (E : Fin (c + p + - c) =~ Fin p) by (apply same_Fin; ring).
  rewrite E. now apply round2_of_whole_cents.
Qed.

End MoreCalculatorFacts.

Section MoreCalculator.
Import JS JSFacts App AppFacts CalculatorFacts MoreCalculatorFacts.
Local Open Scope Q_scope.
Local Open Scope js_scope.



(** X2: [round2] is monotone on finite numbers: [p <= q] gives
    [round2 p <= round2 q]. *)
Theorem round2_monotone (p q : Q) :
  (p <= q)%Q -> (round2 (Fin p) <=? round2 (Fin q)) = true.
Proof.
  intros H. rewrite !round2_Fin. cbn [le]. apply Qle_bool_iff.
  assert (F : (Qfloor (p * 100 + (1 # 2)) <= Qfloor (q * 100 + (1 # 2)))%Z).
  { apply Qfloor_resp_le. lra. }
  rewrite Zle_Qle in F.
  apply Qmult_le_compat_r with (z := (/ 100)%Q) in F; [exact F|].
  unfold Qle. simpl. lia.
Qed.

Lemma round2_monotone_witness :
  (1.234 <= 1.235)%Q /\
  (round2 (Fin 1.234) <=? round2 (Fin 1.235)) = true /\
  round2 (Fin 1.234) =~ Fin 1.23 /\ round2 (Fin 1.235) =~ Fin 1.24.
Proof.
  assert (H : (1.234 <= 1.235)%Q) by (vm_compute; discriminate).
  split; [exact H|]. split; [exact (round2_monotone H)|].
  split; vm_compute; reflexivity.
Defined.

(** X3: every amount [applyQuote] returns is a whole number of cents,
    unless it is [NaN] or an infinity: taxes, principal, payment, total and
    interest, in both versions and for every form. *)
Theorem results_in_whole_cents
    (Math_pow : number -> number -> number) (s : session) :
  Props.all_cents_or_special (result (applyQuote Math_pow s)) /\
  Props.all_cents_or_special (result (App2.applyQuote Math_pow s)).
Proof.
  rewrite applyQuote_calculate, applyQuote2_calculate. cbn [result].
  split; apply calculate_cents_or_special.
Qed.

(** X4: when the principal is at most zero the payment is [0] whatever the
    term and the rate, and with a finite term the total is [0] and the
    interest is the rounded opposite of the principal. *)
Theorem nonpositive_principal
    (Math_pow : number -> number -> number) (s : session) :
  ((baseLoanAmount (result (applyQuote Math_pow s)) <=? Fin 0) = true ->
   payment (result (applyQuote Math_pow s)) = Fin 0 /\
   forall t : Q,
     safeNum (term (form s)) = Fin t ->
     Spec.degenerate safeNum (form s) (result (applyQuote Math_pow s))) /\
  ((baseLoanAmount (result (App2.applyQuote Math_pow s)) <=? Fin 0) = true ->
   payment (result (App2.applyQuote Math_pow s)) = Fin 0 /\
   forall t : Q,
     App2.num (term (form s)) = Fin t ->
     Spec.degenerate App2.num (form s)
       (result (App2.applyQuote Math_pow s))).
Proof.
  rewrite applyQuote_calculate, applyQuote2_calculate. cbn [result].
  split; apply calculate_nonpositive_principal.
Qed.

(** A down payment of 2000 on a price of 1000 with 75 of taxes. *)
Lemma nonpositive_principal_witness :
  baseLoanAmount (result (applyQuote pow_exact Props.overpaid))
  =~ Fin (-925) /\
  payment (result (applyQuote pow_exact Props.overpaid)) = Fin 0 /\
  payment (result (App2.applyQuote pow_exact Props.overpaid)) = Fin 0 /\
  Spec.degenerate safeNum (form Props.overpaid)
    (result (applyQuote pow_exact Props.overpaid)).
Proof.
  destruct (nonpositive_principal pow_exact Props.overpaid) as [H1 H2].
  assert (B1 : (baseLoanAmount (result (applyQuote pow_exact Props.overpaid))
                <=? Fin 0) = true) by (vm_compute; reflexivity).
  assert (B2 : (baseLoanAmount
                  (result (App2.applyQuote pow_exact Props.overpaid))
                <=? Fin 0) = true) by (vm_compute; reflexivity).
  split; [vm_compute; reflexivity|].
  split; [exact (proj1 (H1 B1))|].
  split; [exact (proj1 (H2 B2))|].
  exact (proj2 (H1 B1) 36%Q eq_refl).
Defined.



(** X6: the two versions differ on [NaN] only: on a form none of whose
    numeric fields is [NaN], [applyQuote] and the two synchronizer
    functions of the second version do what those of the first do. *)
Theorem versions_agree_without_NaN
    (Math_pow : number -> number -> number) (s : session) :
  Props.no_NaN_field (form s) ->
  App2.applyQuote Math_pow s = applyQuote Math_pow s /\
  App2.updateSelling s = updateSellingFromCostAndProfit s /\
  App2.updateProfit s = updateProfitFromCostAndSelling s.
Proof.
  intros (Hc & Hp & Hs & Ht & Hr & Ho & Hx).
  rewrite applyQuote_calculate, applyQuote2_calculate.
  unfold Shared.calculate, App2.updateSelling, App2.updateProfit,
    updateSellingFromCostAndProfit, updateProfitFromCostAndSelling.
  change App2.round with round2.
  rewrite !(num_safeNum _ Hc), !(num_safeNum _ Hp), !(num_safeNum _ Hs),
    !(num_safeNum _ Ht), !(num_safeNum _ Hr), !(num_safeNum _ Ho),
    !(num_safeNum _ Hx).
  repeat split.
Qed.

Lemma versions_agree_without_NaN_witness :
  Props.no_NaN_field (form initial) /\
  App2.applyQuote pow_exact initial = applyQuote pow_exact initial /\
  App2.updateSelling initial = updateSellingFromCostAndProfit initial /\
  App2.updateProfit initial = updateProfitFromCostAndSelling initial.
Proof.
  assert (H : Props.no_NaN_field (form initial)) by (repeat split).
  split; [exact H|].
  exact (versions_agree_without_NaN pow_exact initial H).
Defined.

(** X7: [applyQuote] writes all five results from the form alone and
    leaves the form as it is: the result it finds plays no part, and a
    second Apply changes nothing.  This holds for the second version too,
    which reads [result.taxes] and [result.baseLoanAmount] back. *)
Theorem applyQuote_overwrites_result
    (Math_pow : number -> number -> number) (f : QuoteForm)
    (r0 r1 : QuoteResult) :
  let s0 := {| form := f; result := r0 |} in
  let s1 := {| form := f; result := r1 |} in
  applyQuote Math_pow s0 = applyQuote Math_pow s1 /\
  App2.applyQuote Math_pow s0 = App2.applyQuote Math_pow s1 /\
  applyQuote Math_pow (applyQuote Math_pow s0) = applyQuote Math_pow s0 /\
  App2.applyQuote Math_pow (App2.applyQuote Math_pow s0)
  = App2.applyQuote Math_pow s0 /\
  form (applyQuote Math_pow s0) = f /\
  form (App2.applyQuote Math_pow s0) = f.
Proof.
  cbv zeta. rewrite !applyQuote2_calculate, !applyQuote_calculate.
  repeat split.
Qed.



End MoreCalculator.

(** ** The store *)

Module MoreStoreFacts.
Import Server StoreFacts StoreProps.

Lemma filter_commute (A : Type) (f g : A -> bool) (l : list A) :
  filter f (filter g l) = filter g (filter f l).
Proof.
  induction l as [|x l IH]; simpl; [reflexivity|].
  destruct (f x) eqn:F, (g x) eqn:G; simpl; rewrite ?F, ?G, IH; reflexivity.
Qed.

Lemma filter_same (A : Type) (f : A -> bool) (l : list A) :
  (forall x, In x l -> f x = true) -> filter f l = l.
Proof.
  induction l as [|x l IH]; simpl; intros H; [reflexivity|].
  rewrite (H x (or_introl eq_refl)). f_equal.
  apply IH. intros y Hy. apply H. now right.
Qed.

Lemma Subseq_In (A : Type) (l l' : list A) (x : A) :
  Subseq l l' -> In x l -> In x l'.
Proof.
  induction 1 as [|y l l' _ IH|y l l' _ IH]; simpl; intuition.
Qed.

Section Store.

Variable Payload : Type.
Variable toISOString : Z -> string.

Local Abbreviation Quote := (Quote Payload).
Local Abbreviation disk := (disk Payload).

(** The collection after a delete, found or not. *)
Lemma readQuotes_delete_quotes (i : string) (d : disk) :
  readQuotes (fst (delete_quotes i d)) = filter (other_id i) (readQuotes d).
Proof.
  destruct (present_dec i d) as [H|H].
  - now rewrite (delete_quotes_found H).
  - rewrite (delete_quotes_not_found H). cbn [fst]. symmetry.
    apply filter_same. now apply absent_all_other.
Qed.

Lemma present_delete_other (i j : string) (d : disk) :
  i <> j -> (present i (fst (delete_quotes j d)) <-> present i d).
Proof.
  intros N. unfold present. rewrite readQuotes_delete_quotes. split.
  - intros (q & Hq & E). apply filter_In in Hq. exists q. tauto.
  - intros (q & Hq & E). exists q. split; [|assumption].
    apply filter_In. split; [assumption|].
    apply other_id_true. congruence.
Qed.

(** Each request leaves the disk alone or writes a JSON document. *)
Lemma handle_writes (r : request Payload) (d : disk) :
  fst (handle toISOString r d) = d \/
  (is_json (fst (handle toISOString r d)) /\
   writes (fst (handle toISOString r d)) = S (writes d)).
Proof.
  destruct r as [|body now now'|i]; cbn [handle].
  - now left.
  - right. split; [eexists|]; reflexivity.
  - destruct (present_dec i d) as [H|H].
    + rewrite (delete_quotes_found H). right.
      split; [eexists|]; reflexivity.
    + rewrite (delete_quotes_not_found H). now left.
Qed.

Lemma run_writes (rs : list (request Payload)) (d : disk) :
  (writes d <= writes (run toISOString rs d))%nat /\
  (is_json d -> is_json (run toISOString rs d)) /\
  ((writes d < writes (run toISOString rs d))%nat ->
   is_json (run toISOString rs d)).
Proof.
  revert d. induction rs as [|r rs IH]; intros d; cbn [run].
  - repeat split; trivial; lia.
  - destruct (IH (fst (handle toISOString r d))) as (M & J & W).
    destruct (handle_writes r d) as [E|[Hj Hw]].
    + rewrite E in *. repeat split; trivial.
    + repeat split; try lia; intros _; now apply J.
Qed.

Lemma run_app (rs rs' : list (request Payload)) (d : disk) :
  run toISOString (rs ++ rs') d
  = run toISOString rs' (run toISOString rs d).
Proof.
  revert d. induction rs as [|r rs IH]; intros d; simpl; trivial.
Qed.

(** A record of [created rs older] is in [older] or was built by a create
    of [rs]. *)
Lemma created_In (rs : list (request Payload)) (older : list Quote)
    (q : Quote) :
  In q (created toISOString rs older) ->
  In q older \/
  exists body now now',
    In (POST_quotes body now now') rs /\
    q = newQuote toISOString body now now'.
Proof.
  revert older. induction rs as [|[|body now now'|i] rs IH]; intros older H;
    cbn [created] in H.
  - now left.
  - destruct (IH _ H) as [Ho|(b & n & n' & Hin & E)]; [now left|].
    right. exists b, n, n'. split; [now right | assumption].
  - destruct (IH _ H) as [[<-|Ho]|(b & n & n' & Hin & E)].
    + right. exists body, now, now'. split; [now left | reflexivity].
    + now left.
    + right. exists b, n, n'. split; [now right | assumption].
  - destruct (IH _ H) as [Ho|(b & n & n' & Hin & E)]; [now left|].
    right. exists b, n, n'. split; [now right | assumption].
Qed.

End Store.

End MoreStoreFacts.

Section MoreStore.
Import Server StoreFacts MoreStoreFacts.

Variable Payload : Type.
Variable toISOString : Z -> string.

Local Abbreviation disk := (disk Payload).
Local Abbreviation post_quotes := (post_quotes toISOString).
Local Abbreviation newQuote := (newQuote toISOString).
Local Abbreviation run := (run toISOString).

(** X9: the server never leaves a document it cannot read: whatever the
    document was at the start (absent, unreadable, not JSON), once a run
    has written it holds the serialization of a list of quotes. *)
Theorem written_document_is_json
    (rs : list (request Payload)) (d : disk) :
  (writes d < writes (run rs d))%nat ->
  exists quotes, quotes_json (run rs d) = Data (Json quotes).
Proof. intros H. now apply run_writes. Qed.

(** X10: a delete keeps exactly the records with another id, in their
    order, whether it answers "deleted" or "not found"; a record with
    another id is never lost. *)
Theorem delete_keeps_the_others (i : string) (d : disk) :
  list_ (fst (delete_quotes i d)) = filter (other_id i) (list_ d) /\
  Subseq (list_ (fst (delete_quotes i d))) (list_ d) /\
  (forall q, In q (list_ d) -> id q <> i ->
             In q (list_ (fst (delete_quotes i d)))) /\
  ~ In i (ids (fst (delete_quotes i d))).
Proof.
  unfold list_, ids. rewrite readQuotes_delete_quotes.
  split; [reflexivity|]. split; [apply Subseq_filter|]. split.
  - intros q Hq N. apply filter_In. split; [assumption|].
    now apply other_id_true.
  - intros H. apply in_map_iff in H. destruct H as (q & E & Hq).
    apply filter_In in Hq. destruct Hq as [_ Hq].
    now apply other_id_true in Hq.
Qed.

(** X11: deleting the same id again changes nothing on the disk: the
    second delete finds no record and does not write. *)
Theorem delete_twice (i : string) (d : disk) :
  fst (delete_quotes i (fst (delete_quotes i d))) = fst (delete_quotes i d).
Proof.
  now rewrite (delete_quotes_not_found (delete_quotes_absent (i := i) d)).
Qed.

(** X12: two deletes commute: whatever the ids, the disk after deleting
    [i] then [j] is the disk after deleting [j] then [i], down to the number
    of writes. *)
Theorem deletes_commute (i j : string) (d : disk) :
  fst (delete_quotes i (fst (delete_quotes j d)))
  = fst (delete_quotes j (fst (delete_quotes i d))).
Proof.
  destruct (String.eqb_spec i j) as [->|N]; [reflexivity|].
  assert (Pi := present_delete_other d N).
  assert (Pj := present_delete_other d (not_eq_sym N)).
  destruct (present_dec i d) as [Hi|Hi], (present_dec j d) as [Hj|Hj].
  - rewrite (delete_quotes_found (proj2 Pi Hi)),
      (delete_quotes_found (proj2 Pj Hj)).
    rewrite !readQuotes_delete_quotes.
    rewrite (delete_quotes_found Hi), (delete_quotes_found Hj).
    cbn [fst]. unfold writeQuotes, fs_writeFile, JSON_stringify.
    cbn [writes]. now rewrite filter_commute.
  - rewrite (delete_quotes_not_found Hj).
    rewrite (delete_quotes_not_found
               (fun H => Hj (proj1 Pj H))).
    reflexivity.
  - rewrite (delete_quotes_not_found Hi).
    rewrite (delete_quotes_not_found
               (fun H => Hi (proj1 Pi H))).
    reflexivity.
  - rewrite (delete_quotes_not_found Hj), (delete_quotes_not_found Hi).
    cbn [fst].
    now rewrite (delete_quotes_not_found Hj), (delete_quotes_not_found Hi).
Qed.

(** X13: a create followed by the delete of the id it returned leaves the
    records that had another id; when no stored record had that id, the
    collection is the one before the create. *)
Theorem create_then_delete (body : Payload) (now now' : Z) (d : disk) :
  let d' :=
    fst (delete_quotes (toString now) (fst (post_quotes body now now' d))) in
  list_ d' = filter (other_id (toString now)) (list_ d) /\
  (~ In (toString now) (ids d) -> list_ d' = list_ d).
Proof.
  cbv zeta. unfold list_. rewrite readQuotes_delete_quotes.
  rewrite post_quotes_spec. cbn [fst]. rewrite readQuotes_writeQuotes.
  assert (E : other_id (toString now) (newQuote body now now') = false).
  { unfold other_id. cbn [id Server.newQuote].
    now rewrite String.eqb_refl. }
  cbn [filter]. rewrite E.
  split; [reflexivity|].
  intros H. apply filter_same. intros q Hq. apply other_id_true.
  intros Eq. apply H. unfold ids. apply in_map_iff. now exists q.
Qed.

(** X14: the store neither invents nor alters a record: every record
    stored after a run was stored at its start or is, field for field, the
    record one of the creates of the run built. *)
Theorem stored_records_were_created
    (rs : list (request Payload)) (d : disk) (q : Quote Payload) :
  In q (list_ (run rs d)) ->
  In q (list_ d) \/
  exists body now now',
    In (POST_quotes body now now') rs /\ q = newQuote body now now'.
Proof.
  intros H. apply (@created_In Payload toISOString rs (list_ d) q).
  exact (@Subseq_In _ _ _ q (run_Subseq toISOString rs d) H).
Qed.

End MoreStore.

Section MoreStoreExamples.
Import Server StoreFacts.

Lemma written_document_is_json_witness :
  let d0 : disk string :=
    {| quotes_json := Data (Garbage "{ not json"); writes := 7 |} in
  let rs := [POST_quotes Scenario.first_quote 1000 1000] in
  (writes d0 < writes (run Scenario.stamp rs d0))%nat /\
  readQuotes d0 = [] /\
  exists quotes, quotes_json (run Scenario.stamp rs d0) = Data (Json quotes).
Proof.
  cbv zeta.
  assert (W : (7 < 8)%nat) by (repeat constructor).
  split; [exact W|]. split; [reflexivity|].
  exact (written_document_is_json Scenario.stamp
           [POST_quotes Scenario.first_quote 1000 1000]
           {| quotes_json := Data (Garbage "{ not json"); writes := 7 |} W).
Defined.

Lemma create_then_delete_witness :
  let d := run Scenario.stamp Scenario.spaced_saves fresh in
  ~ In (Server.toString 4000) (ids d) /\
  list_ (fst (delete_quotes (Server.toString 4000)
                (fst (post_quotes Scenario.stamp Scenario.second_quote
                        4000 4000 d))))
  = list_ d.
Proof.
  cbv zeta.
  assert (H : ~ In (Server.toString 4000)
                (ids (run Scenario.stamp Scenario.spaced_saves fresh))).
  { vm_compute. intros [H|[H|[]]]; discriminate H. }
  split; [exact H|].
  exact (proj2 (create_then_delete Scenario.stamp Scenario.second_quote
                  4000 4000
                  (run Scenario.stamp Scenario.spaced_saves fresh)) H).
Defined.

Lemma stored_records_were_created_witness :
  let q := newQuote Scenario.stamp Scenario.second_quote 2000 2000 in
  In q (list_ (run Scenario.stamp Scenario.spaced_saves fresh)) /\
  (In q (list_ (@fresh string)) \/
   exists body now now',
     In (POST_quotes body now now') Scenario.spaced_saves /\
     q = newQuote Scenario.stamp body now now').
Proof.
  cbv zeta.
  assert (H : In (newQuote Scenario.stamp Scenario.second_quote 2000 2000)
                (list_ (run Scenario.stamp Scenario.spaced_saves fresh))).
  { right. left. vm_compute. reflexivity. }
  split; [exact H|].
  exact (stored_records_were_created Scenario.stamp
           Scenario.spaced_saves fresh _ H).
Defined.

End MoreStoreExamples.

(** ** The page and the server *)

Module ClientFacts.
Import Server StoreFacts MoreStoreFacts Client.

Section Page.

Variable Payload : Type.
Variable toISOString : Z -> string.
Variable payload_of : App.session -> Payload.

Local Abbreviation world := (world Payload).
Local Abbreviation fetchQuotes := (fetchQuotes toISOString).
Local Abbreviation fetchQuotes2 := (fetchQuotes2 toISOString).
Local Abbreviation saveQuote := (saveQuote toISOString payload_of).
Local Abbreviation saveQuote2 := (saveQuote2 toISOString payload_of).
Local Abbreviation deleteQuote := (deleteQuote toISOString).
Local Abbreviation deleteQuote2 := (deleteQuote2 toISOString).
Local Abbreviation act := (act toISOString payload_of).
Local Abbreviation act2 := (act2 toISOString payload_of).

Lemma fetchQuotes_delivered (w : world) :
  fetchQuotes Delivered w
  = (set_savedQuotes (readQuotes (snd w)) (fst w), snd w).
Proof. destruct w as [p d]. reflexivity. Qed.

Lemma fetchQuotes2_delivered (w : world) :
  fetchQuotes2 Delivered w
  = (set_savedQuotes (readQuotes (snd w)) (fst w), snd w).
Proof. destruct w as [p d]. reflexivity. Qed.

Lemma saveQuote_delivered (now now' : Z) (w : world) :
  let q := newQuote toISOString (payload_of (session (fst w))) now now' in
  saveQuote Delivered now now' w
  = (set_savedQuotes (q :: savedQuotes (fst w)) (fst w),
     writeQuotes (q :: readQuotes (snd w)) (snd w)).
Proof. destruct w as [p d]. reflexivity. Qed.

Lemma saveQuote2_delivered (now now' : Z) (w : world) :
  saveQuote2 Delivered now now' w = saveQuote Delivered now now' w.
Proof. destruct w as [p d]. reflexivity. Qed.

Lemma deleteQuote_found (i : string) (w : world) :
  present i (snd w) ->
  deleteQuote Delivered i w
  = (set_savedQuotes (filter (other_id i) (savedQuotes (fst w))) (fst w),
     fst (delete_quotes i (snd w))).
Proof.
  destruct w as [p d]. cbn [fst snd]. intros H.
  unfold Client.deleteQuote, fetch. cbn [handle].
  now rewrite (delete_quotes_found H).
Qed.

Lemma deleteQuote_not_found (i : string) (w : world) :
  ~ present i (snd w) -> deleteQuote Delivered i w = w.
Proof.
  destruct w as [p d]. cbn [fst snd]. intros H.
  unfold Client.deleteQuote, fetch. cbn [handle].
  now rewrite (delete_quotes_not_found H).
Qed.

Lemma deleteQuote2_delivered (i : string) (w : world) :
  deleteQuote2 Delivered i w
  = (set_savedQuotes (filter (other_id i) (savedQuotes (fst w))) (fst w),
     fst (delete_quotes i (snd w))).
Proof. destruct w as [p d]. reflexivity. Qed.

(** A lost request changes nothing, in either version. *)
Lemma request_lost (a : action) (w : world) :
  delivery_of a = RequestLost -> act a w = w /\ act2 a w = w.
Proof.
  destruct w as [p d].
  destruct a as [n|n now now'|n i|g]; cbn [delivery_of];
    intros E; try discriminate E; subst n; split; reflexivity.
Qed.

Lemma act_mirrored (a : action) (w : world) :
  delivery_of a <> ResponseLost ->
  mirrored w -> mirrored (act a w) /\ mirrored (act2 a w).
Proof.
  intros N M.
  destruct (delivery_of a) eqn:D; [|destruct (request_lost a w D) as [-> ->];
                                    now split | contradiction].
  destruct a as [n|n now now'|n i|g]; cbn [delivery_of] in D;
    try subst n; cbn [Client.act Client.act2].
  - rewrite fetchQuotes_delivered, fetchQuotes2_delivered. now split.
  - rewrite saveQuote2_delivered, saveQuote_delivered.
    unfold mirrored in *. cbn [fst snd savedQuotes set_savedQuotes].
    rewrite readQuotes_writeQuotes, M. now split.
  - rewrite deleteQuote2_delivered. split.
    + destruct (present_dec i (snd w)) as [H|H].
      * rewrite deleteQuote_found by exact H. unfold mirrored in *.
        cbn [fst snd savedQuotes set_savedQuotes].
        now rewrite readQuotes_delete_quotes, M.
      * now rewrite deleteQuote_not_found by exact H.
    + unfold mirrored in *. cbn [fst snd savedQuotes set_savedQuotes].
      now rewrite readQuotes_delete_quotes, M.
  - now split.
Qed.

Lemma play_mirrored (acts : list action) (w : world) :
  Forall (fun a => delivery_of a <> ResponseLost) acts ->
  mirrored w ->
  mirrored (play toISOString payload_of acts w) /\
  mirrored (play2 toISOString payload_of acts w).
Proof.
  intros F. revert w.
  induction F as [|a acts Ha _ IH]; intros w M; cbn [play play2].
  - now split.
  - destruct (act_mirrored a Ha M) as [M1 M2].
    split; [apply (IH _ M1) | apply (IH _ M2)].
Qed.

End Page.

End ClientFacts.

Section MoreClient.
Import Server StoreFacts Client ClientFacts.

Variable Payload : Type.
Variable toISOString : Z -> string.
Variable payload_of : App.session -> Payload.

Local Abbreviation world := (world Payload).

(** X15: a delivered [fetchQuotes] makes the list of the page the
    collection of the server, whatever the page held, in both versions; and
    no [fetchQuotes], delivered or not, changes the disk of the server. *)
Theorem fetchQuotes_mirrors (n : delivery) (w : world) :
  mirrored (fetchQuotes toISOString Delivered w) /\
  mirrored (fetchQuotes2 toISOString Delivered w) /\
  snd (fetchQuotes toISOString n w) = snd w /\
  snd (fetchQuotes2 toISOString n w) = snd w.
Proof.
  rewrite fetchQuotes_delivered, fetchQuotes2_delivered.
  split; [reflexivity|]. split; [reflexivity|].
  destruct w as [p d]. destruct n; split; reflexivity.
Qed.

(** X16: as long as no response is lost, the list of the page stays the
    collection of the server through fetches, saves, deletes and edits, in
    both versions (one page talking to the server). *)
Theorem page_mirrors_server (acts : list action) (w : world) :
  mirrored w ->
  Forall (fun a => delivery_of a <> ResponseLost) acts ->
  mirrored (play toISOString payload_of acts w) /\
  mirrored (play2 toISOString payload_of acts w).
Proof. intros M F. now apply play_mirrored. Qed.

(** X17: when the server answers "not found", [deleteQuote] of the first
    version leaves the page as it is, and [deleteQuote] of the second
    version, which does not look at the response, still drops the records
    with that id from its list. *)
Theorem deleteQuote_on_not_found (i : string) (w : world) :
  ~ present i (snd w) ->
  deleteQuote toISOString Delivered i w = w /\
  deleteQuote2 toISOString Delivered i w
  = (set_savedQuotes (filter (other_id i) (savedQuotes (fst w))) (fst w),
     snd w).
Proof.
  intros H. split.
  - now apply deleteQuote_not_found.
  - rewrite deleteQuote2_delivered. now rewrite (delete_quotes_not_found H).
Qed.

End MoreClient.

Module ObjFacts.
Import JS Obj.

Lemma get_app (k : string) (s t : obj) :
  get k (s ++ t) = if has k s then get k s else get k t.
Proof.
  induction s as [|[k' v] s IH]; simpl; [reflexivity|].
  destruct (k' =? k)%string; simpl; trivial.
Qed.

Lemma has_app (k : string) (s t : obj) :
  has k (s ++ t) = has k s || has k t.
Proof.
  induction s as [|[k' v] s IH]; simpl; [reflexivity|].
  now rewrite IH, orb_assoc.
Qed.

(** What [{ ...form, ...result }] holds under [k]. *)
Lemma get_payload (k : string) (r : reactive) :
  get k (payload r)
  = if has k (result r) then get k (result r) else get k (form r).
Proof.
  unfold payload, spread2, assign.
  now rewrite get_app, app_nil_r.
Qed.

End ObjFacts.

Section MoreObjects.
Import JS Obj ObjFacts.
Local Open Scope string_scope.

(** X18: in the second version, once a quote has been viewed, Save sends
    the viewed quote's value for every form field the quote has, whatever
    the form holds by then and whatever Apply has computed: [viewQuote]
    copied the quote into [result] too, and [{ ...form, ...result }] lets
    [result] win. *)
Theorem viewed_quote_shadows_the_form
    (quote : obj) (r : reactive) (k : string) (form' : obj)
    (taxes baseLoanAmount payment totalLoanAmount interest : value) :
  In k form_keys -> has k quote = true ->
  get k
    (payload
       {| form := form';
          result :=
            applied taxes baseLoanAmount payment totalLoanAmount interest
              (result (viewQuote2 quote r)) |})
  = get k quote.
Proof.
  intros K H. rewrite get_payload. cbn [result form viewQuote2].
  unfold assign, applied, set.
  assert (G : get k (quote ++ result r)%list = get k quote).
  { now rewrite get_app, H. }
  assert (A : has k (quote ++ result r)%list = true).
  { now rewrite has_app, H. }
  simpl in K.
  repeat (destruct K as [<-|K]; [cbn [get has String.eqb Ascii.eqb Bool.eqb orb];
                                 now rewrite A, G|]).
  destruct K.
Qed.

(** The cost is edited to 30000 after viewing a quote saved with 26906. *)
Lemma viewed_quote_shadows_the_form_witness :
  let r := viewQuote2 saved_escape initial in
  let form' := set "cost" (VNumber (Fin 30000)) (form r) in
  get "cost" form' = VNumber (Fin 30000) /\
  get "cost"
    (payload
       {| form := form';
          result :=
            applied (VNumber (Fin 2355.45)) (VNumber (Fin 31855.45))
              (VNumber (Fin 964.78)) (VNumber (Fin 34732.08))
              (VNumber (Fin 2876.63)) (result r) |})
  = VNumber (Fin 26906).
Proof.
  cbv zeta. split; [reflexivity|].
  exact (@viewed_quote_shadows_the_form saved_escape initial "cost"
           (set "cost" (VNumber (Fin 30000))
              (form (viewQuote2 saved_escape initial)))
           (VNumber (Fin 2355.45)) (VNumber (Fin 31855.45))
           (VNumber (Fin 964.78)) (VNumber (Fin 34732.08))
           (VNumber (Fin 2876.63))
           (or_introl eq_refl) eq_refl).
Defined.

(** X19: as long as [result] has no property of that name (a fresh page,
    and any page of the first version, whose [viewQuote] assigns the five
    results only), Save sends what the form holds for every form field,
    after a View and an Apply too. *)
Theorem save_sends_the_form
    (quote : obj) (r : reactive) (k : string) (form' : obj)
    (taxes baseLoanAmount payment totalLoanAmount interest : value) :
  In k form_keys -> has k (result r) = false ->
  get k
    (payload
       {| form := form';
          result :=
            applied taxes baseLoanAmount payment totalLoanAmount interest
              (result (viewQuote quote r)) |})
  = get k form' /\
  get k
    (payload
       {| form := form';
          result :=
            applied taxes baseLoanAmount payment totalLoanAmount interest
              (result r) |})
  = get k form'.
Proof.
  intros K H. rewrite !get_payload. cbn [result form viewQuote].
  unfold applied, set. simpl in K.
  repeat (destruct K as [<-|K];
          [cbn [get has String.eqb Ascii.eqb Bool.eqb orb];
           now rewrite H|]).
  destruct K.
Qed.

Lemma save_sends_the_form_witness :
  let form' := set "cost" (VNumber (Fin 30000)) (form initial) in
  has "cost" (result initial) = false /\
  get "cost"
    (payload
       {| form := form';
          result :=
            applied (VNumber (Fin 2355.45)) (VNumber (Fin 31855.45))
              (VNumber (Fin 964.78)) (VNumber (Fin 34732.08))
              (VNumber (Fin 2876.63))
              (result (viewQuote saved_escape initial)) |})
  = VNumber (Fin 30000).
Proof.
  cbv zeta. split; [reflexivity|].
  exact (proj1 (@save_sends_the_form saved_escape initial "cost"
                  (set "cost" (VNumber (Fin 30000)) (form initial))
                  (VNumber (Fin 2355.45)) (VNumber (Fin 31855.45))
                  (VNumber (Fin 964.78)) (VNumber (Fin 34732.08))
                  (VNumber (Fin 2876.63))
                  (or_introl eq_refl) eq_refl)).
Defined.

End MoreObjects.

Section MoreClientExamples.
Import Server Client ClientScenario.

Lemma page_mirrors_server_witness :
  mirrored opened /\
  Forall (fun a => delivery_of a <> ResponseLost) visit /\
  mirrored (play Scenario.stamp payload_of visit opened) /\
  mirrored (play2 Scenario.stamp payload_of visit opened) /\
  map (@id string)
    (savedQuotes (fst (play Scenario.stamp payload_of visit opened)))
  = ["2000"]%string.
Proof.
  assert (M : mirrored opened) by reflexivity.
  assert (F : Forall (fun a => delivery_of a <> ResponseLost) visit).
  { repeat constructor; discriminate. }
  destruct (page_mirrors_server Scenario.stamp payload_of M F) as [M1 M2].
  split; [exact M|]. split; [exact F|].
  split; [exact M1|]. split; [exact M2|].
  vm_compute. reflexivity.
Defined.

(** A save whose response is lost is stored by the server and missing on
    the page, until the next fetch. *)
Example lost_response_then_fetch :
  let w := saveQuote Scenario.stamp payload_of ResponseLost 1000 1000
             opened in
  savedQuotes (fst w) = [] /\
  ids (snd w) = ["1000"]%string /\
  map (@id string)
    (savedQuotes (fst (fetchQuotes Scenario.stamp Delivered w)))
  = ["1000"]%string.
Proof. cbv zeta. repeat split; vm_compute; reflexivity. Qed.

Lemma deleteQuote_on_not_found_witness :
  ~ present "1000" (snd stale) /\
  deleteQuote Scenario.stamp Delivered "1000" stale = stale /\
  savedQuotes (fst (deleteQuote2 Scenario.stamp Delivered "1000" stale))
  = [].
Proof.
  assert (H : ~ present "1000" (snd stale)).
  { intros (q & [] & _). }
  destruct (@deleteQuote_on_not_found string Scenario.stamp "1000" stale H)
    as [H1 H2].
  split; [exact H|]. split; [exact H1|].
  rewrite H2. vm_compute. reflexivity.
Defined.

End MoreClientExamples.
